(** * Gitee issues to Jekyll posts: a shallow embedding of
    [_posts/generate_articles.py] and the properties of its transformer,
    fetcher and publication loop. *)

From Stdlib Require Import ZArith NArith Lia List Ascii String Decimal.
From stdpp Require Import base option list sorting gmap.

Local Open Scope N_scope.

(** ** Text

    A Python [str] is a sequence of Unicode code points.  The regular
    expressions and [str.strip] of the program work code point by code
    point, so a character is its code point and a text is a list. *)

Abbreviation char := N.
Abbreviation str := (list N).

(** Source literals are written as UTF-8 strings and decoded once. *)
Fixpoint utf8_decode (bs : list N) {struct bs} : str :=
  match bs with
  | [] => []
  | b :: rest =>
      if b <? 128 then b :: utf8_decode rest
      else if b <? 224 then
        match rest with
        | b1 :: rest' => ((b mod 32) * 64 + b1 mod 64) :: utf8_decode rest'
        | _ => []
        end
      else if b <? 240 then
        match rest with
        | b1 :: b2 :: rest' =>
            ((b mod 16) * 4096 + (b1 mod 64) * 64 + b2 mod 64)
              :: utf8_decode rest'
        | _ => []
        end
      else
        match rest with
        | b1 :: b2 :: b3 :: rest' =>
            ((b mod 8) * 262144 + (b1 mod 64) * 4096
             + (b2 mod 64) * 64 + b3 mod 64) :: utf8_decode rest'
        | _ => []
        end
  end.

Fixpoint bytes_of_string (s : string) : list N :=
  match s with
  | EmptyString => []
  | String a s' => N_of_ascii a :: bytes_of_string s'
  end.

Definition u (s : string) : str := utf8_decode (bytes_of_string s).

Definition newline : char := 10.
Definition dquote : char := 34.
Definition hyphen : char := 45.

(** [sep.join(parts)] *)
Fixpoint join (sep : str) (parts : list str) : str :=
  match parts with
  | [] => []
  | [p] => p
  | p :: rest => p ++ sep ++ join sep rest
  end.

(** [text.split(c)] for a one-character separator: never an empty list. *)
Fixpoint split (c : char) (s : str) : list str :=
  match s with
  | [] => [[]]
  | x :: s' =>
      if x =? c then [] :: split c s'
      else match split c s' with
           | [] => [[x]]
           | l :: ls => (x :: l) :: ls
           end
  end.

(** [Py_UNICODE_ISSPACE]: what [\s] matches in a [str] pattern and what
    [str.strip()] removes. *)
Definition isspace (c : char) : bool :=
  ((9 <=? c) && (c <=? 13)) || ((28 <=? c) && (c <=? 32))
  || (c =? 133) || (c =? 160) || (c =? 5760)
  || ((8192 <=? c) && (c <=? 8202))
  || (c =? 8232) || (c =? 8233) || (c =? 8239) || (c =? 8287)
  || (c =? 12288).

Fixpoint lstrip (p : char -> bool) (s : str) : str :=
  match s with
  | [] => []
  | c :: s' => if p c then lstrip p s' else s
  end.

Definition rstrip (p : char -> bool) (s : str) : str :=
  reverse (lstrip p (reverse s)).

(** [s.strip(chars)] with [p] the membership test of [chars];
    [s.strip()] is [strip isspace s]. *)
Definition strip (p : char -> bool) (s : str) : str := rstrip p (lstrip p s).

(** ** Regular expressions

    The four patterns of the program are sequences of one-character
    classes, each taken once, greedily one or more times ([+]) or lazily
    zero or more times ([*?]).  [match_here] is the backtracking match of
    [re] anchored at the head of the text; it yields the length of the
    match. *)

Inductive atom :=
| One (p : char -> bool)
| PlusGreedy (p : char -> bool)
| StarLazy (p : char -> bool).

Abbreviation regex := (list atom).

(** [p+] followed by the rest [k] of the pattern: as many characters as
    possible, giving back one at a time while [k] fails. *)
Fixpoint greedy_plus (p : char -> bool) (k : str -> option nat) (t : str)
    : option nat :=
  match t with
  | c :: t' =>
      if p c then
        match greedy_plus p k t' with
        | Some n => Some (S n)
        | None => S <$> k t'
        end
      else None
  | [] => None
  end.

(** [p*?] followed by the rest [k] of the pattern: as few characters as
    possible, taking one more while [k] fails. *)
Fixpoint lazy_star (p : char -> bool) (k : str -> option nat) (t : str)
    : option nat :=
  match k t with
  | Some n => Some n
  | None =>
      match t with
      | c :: t' => if p c then S <$> lazy_star p k t' else None
      | [] => None
      end
  end.

Fixpoint match_here (r : regex) (s : str) {struct r} : option nat :=
  match r with
  | [] => Some 0%nat
  | One p :: r' =>
      match s with
      | c :: s' => if p c then S <$> match_here r' s' else None
      | [] => None
      end
  | PlusGreedy p :: r' => greedy_plus p (match_here r') s
  | StarLazy p :: r' => lazy_star p (match_here r') s
  end.

(** [re.sub(r, repl, s)]: one pass from the left; a match is replaced and
    the scan resumes after it ([skip] counts the characters of the match
    still to drop).  The patterns of the program begin with a
    one-character atom, so a match is never empty. *)
Fixpoint sub_from (r : regex) (repl : str) (skip : nat) (s : str)
    {struct s} : str :=
  match s with
  | [] => []
  | c :: s' =>
      match skip with
      | S k => sub_from r repl k s'
      | O =>
          match match_here r s with
          | Some (S n) => repl ++ sub_from r repl n s'
          | _ => c :: sub_from r repl 0 s'
          end
      end
  end.

Definition re_sub (r : regex) (repl : str) (s : str) : str :=
  sub_from r repl 0 s.

Definition is_char (c : char) : char -> bool := fun x => x =? c.

(** [.] matches everything but a newline. *)
Definition dot : char -> bool := fun x => negb (x =? newline).

(** The class of the nine characters removed first: less-than,
    greater-than, colon, double quote, slash, backslash, bar, question
    mark and star. *)
Definition forbidden (c : char) : bool :=
  (c =? 60) || (c =? 62) || (c =? 58) || (c =? 34) || (c =? 47)
  || (c =? 92) || (c =? 124) || (c =? 63) || (c =? 42).

Definition re_forbidden : regex := [One forbidden].
Definition re_spaces : regex := [PlusGreedy isspace].
Definition re_hyphens : regex := [PlusGreedy (is_char hyphen)].

(** The inline image pattern: bang, bracketed text, parenthesised text,
    both taken lazily. *)
Definition re_image : regex :=
  [One (is_char 33); One (is_char 91); StarLazy dot;
   One (is_char 93); One (is_char 40); StarLazy dot; One (is_char 41)].

(** ** Dates *)

Record datetime := {
  year : N; month : N; day : N;
  hour : N; minute : N; second : N;
  (** [tzinfo]: [None] for a naive value, else the offset from UTC as
      sign and minutes *)
  utcoffset : option (bool * N)
}.

(** The fields are printed in decimal, zero-padded: two digits for a
    field below 100, four for the year (as [%Y] prints the years from
    1000 to 9999). *)
Definition digit (n : N) : char := 48 + n mod 10.
Definition pad2 (n : N) : str := [digit (n / 10); digit n].
Definition pad4 (n : N) : str :=
  [digit (n / 1000); digit (n / 100); digit (n / 10); digit n].

(** [strftime('%Y%m%d-%H%M%S')] *)
Definition strftime_compact (d : datetime) : str :=
  pad4 (year d) ++ pad2 (month d) ++ pad2 (day d) ++ [hyphen]
  ++ pad2 (hour d) ++ pad2 (minute d) ++ pad2 (second d).

(** [strftime('%Y-%m-%d')] *)
Definition strftime_date (d : datetime) : str :=
  pad4 (year d) ++ [hyphen] ++ pad2 (month d) ++ [hyphen] ++ pad2 (day d).

(** [%z]: empty for a naive value, else [+HHMM] or [-HHMM]. *)
Definition strftime_z (d : datetime) : str :=
  match utcoffset d with
  | None => []
  | Some (neg, m) => (if neg then 45 else 43) :: pad2 (m / 60) ++ pad2 (m mod 60)
  end.

(** [strftime('%Y-%m-%d %H:%M:%S %z')] *)
Definition strftime_full (d : datetime) : str :=
  strftime_date d ++ [32] ++ pad2 (hour d) ++ [58] ++ pad2 (minute d)
  ++ [58] ++ pad2 (second d) ++ [32] ++ strftime_z d.

(** ** The transformer *)

(** [sanitize_filename(title)]; [now] is what [datetime.datetime.now()]
    returns at the call. *)
Definition sanitize_filename (now : datetime) (title : str) : str :=
  let filename := re_sub re_forbidden [] title in
  let filename := re_sub re_spaces [hyphen] filename in
  let filename := re_sub re_hyphens [hyphen] filename in
  let filename := strip (is_char hyphen) filename in
  match filename with
  | [] => u "article-" ++ strftime_compact now
  | _ => filename
  end.

(** The title after the four stripping steps, before the test for
    emptiness. *)
Definition stripped_title (title : str) : str :=
  strip (is_char hyphen)
    (re_sub re_hyphens [hyphen]
       (re_sub re_spaces [hyphen] (re_sub re_forbidden [] title))).

(** *** Timestamps

    [datetime.fromisoformat] on the shapes every supported Python accepts
    alike: [YYYY-MM-DD] and [YYYY-MM-DD?HH:MM:SS] with an optional
    [+HH:MM] or [-HH:MM] offset, ASCII digits only.  [None] stands for a
    text that is rejected or that is outside these shapes. *)

Definition digit_val (c : char) : option N :=
  if (48 <=? c) && (c <=? 57) then Some (c - 48) else None.

Definition num2 (a b : char) : option N :=
  x ← digit_val a; y ← digit_val b; Some (10 * x + y).

Definition num4 (a b c d : char) : option N :=
  x ← num2 a b; y ← num2 c d; Some (100 * x + y).

Definition is_leap (y : N) : bool :=
  (y mod 4 =? 0) && (negb (y mod 100 =? 0) || (y mod 400 =? 0)).

Definition days_in_month (y m : N) : N :=
  if m =? 2 then (if is_leap y then 29 else 28)
  else if (m =? 4) || (m =? 6) || (m =? 9) || (m =? 11) then 30 else 31.

Definition valid_date (y m d : N) : bool :=
  (1 <=? y) && (1 <=? m) && (m <=? 12) && (1 <=? d)
  && (d <=? days_in_month y m).

Definition valid_time (h mi s : N) : bool :=
  (h <? 24) && (mi <? 60) && (s <? 60).

Definition parse_offset (tz : str) : option (option (bool * N)) :=
  match tz with
  | [] => Some None
  | sg :: a :: b :: c :: d :: e :: [] =>
      if ((sg =? 43) || (sg =? 45)) && (c =? 58) then
        hh ← num2 a b; mm ← num2 d e;
        let m := 60 * hh + mm in
        if m <? 1440 then
          Some (Some (if m =? 0 then false else sg =? 45, m))
        else None
      else None
  | _ => None
  end.

Definition fromisoformat (s : str) : option datetime :=
  match s with
  | y1 :: y2 :: y3 :: y4 :: d1 :: m1 :: m2 :: d2 :: a1 :: a2 :: rest =>
      if (d1 =? hyphen) && (d2 =? hyphen) then
        y ← num4 y1 y2 y3 y4; m ← num2 m1 m2; d ← num2 a1 a2;
        if valid_date y m d then
          match rest with
          | [] => Some {| year := y; month := m; day := d; hour := 0;
                          minute := 0; second := 0; utcoffset := None |}
          | _ :: h1 :: h2 :: c1 :: i1 :: i2 :: c2 :: s1 :: s2 :: tz =>
              if (c1 =? 58) && (c2 =? 58) then
                h ← num2 h1 h2; mi ← num2 i1 i2; sec ← num2 s1 s2;
                if valid_time h mi sec then
                  off ← parse_offset tz;
                  Some {| year := y; month := m; day := d; hour := h;
                          minute := mi; second := sec; utcoffset := off |}
                else None
              else None
          | _ => None
          end
        else None
      else None
  | _ => None
  end.

(** [text.replace('Z', '+00:00')] *)
Definition replace_Z (s : str) : str :=
  flat_map (fun c => if c =? 90 then [43; 48; 48; 58; 48; 48] else [c]) s.

(** *** Records

    A record is the decoded JSON object of an issue: a dictionary from
    field names to values.  The fields the program reads hold [null],
    booleans, integers or text. *)

Inductive value :=
| VNone
| VBool (b : bool)
| VInt (z : Z)
| VStr (s : str).

Abbreviation issue := (gmap str value).

Fixpoint uint_chars (d : Decimal.uint) : str :=
  match d with
  | Nil => []
  | D0 d => 48 :: uint_chars d
  | D1 d => 49 :: uint_chars d
  | D2 d => 50 :: uint_chars d
  | D3 d => 51 :: uint_chars d
  | D4 d => 52 :: uint_chars d
  | D5 d => 53 :: uint_chars d
  | D6 d => 54 :: uint_chars d
  | D7 d => 55 :: uint_chars d
  | D8 d => 56 :: uint_chars d
  | D9 d => 57 :: uint_chars d
  end.

Definition str_of_N (n : N) : str := uint_chars (N.to_uint n).

Definition str_of_Z (z : Z) : str :=
  match z with
  | Zneg q => hyphen :: str_of_N (Npos q)
  | _ => str_of_N (Z.to_N z)
  end.

(** [str(v)], what an f-string prints for [v]. *)
Definition format_value (v : value) : str :=
  match v with
  | VNone => u "None"
  | VBool true => u "True"
  | VBool false => u "False"
  | VInt z => str_of_Z z
  | VStr s => s
  end.

(** Truth value of [v], as [if v] and [v or ...] test it. *)
Definition truthy (v : value) : bool :=
  match v with
  | VNone => false
  | VBool b => b
  | VInt z => negb (z =? 0)%Z
  | VStr s => match s with [] => false | _ => true end
  end.

Definition k_title : str := Eval vm_compute in u "title".
Definition k_body : str := Eval vm_compute in u "body".
Definition k_created_at : str := Eval vm_compute in u "created_at".
Definition k_updated_at : str := Eval vm_compute in u "updated_at".
Definition k_number : str := Eval vm_compute in u "number".

(** *** Exceptions *)

Inductive exn :=
| KeyError (key : str)
| TypeError
| AttributeError
| ValueError
| RequestException (msg : str)
| OtherException (msg : str).

Inductive result (A : Type) :=
| Ok (a : A)
| Raise (e : exn).
Arguments Ok {A} a.
Arguments Raise {A} e.

#[global] Instance result_ret : MRet result := fun A a => Ok a.
#[global] Instance result_bind : MBind result := fun A B f m =>
  match m with
  | Ok a => f a
  | Raise e => Raise e
  end.

(** [d[key]] *)
Definition getitem (d : issue) (key : str) : result value :=
  match d !! key with
  | Some v => Ok v
  | None => Raise (KeyError key)
  end.

(** [d.get(key, default)] *)
Definition get_default (d : issue) (key : str) (default : value) : value :=
  match d !! key with
  | Some v => v
  | None => default
  end.

(** A method or pattern function of [str] applied to [v]: [e] is raised
    when [v] is not text. *)
Definition as_str (e : exn) (v : value) : result str :=
  match v with
  | VStr s => Ok s
  | _ => Raise e
  end.

Definition parse_timestamp (v : value) : result datetime :=
  s ← as_str AttributeError v;
  match fromisoformat (replace_Z s) with
  | Some d => Ok d
  | None => Raise ValueError
  end.

Definition repo_owner : str := Eval vm_compute in u "aywlzj".
Definition repo_name : str := Eval vm_compute in u "aywlzj.gitee.io".

(** [process_markdown(markdown_content)] *)
Definition process_markdown (markdown_content : str) : str :=
  match markdown_content with
  | [] => []
  | _ =>
      let lines := split newline markdown_content in
      let processed_lines :=
        fold_left (fun acc line => acc ++ [re_sub re_image [] line])
                  lines [] in
      join [newline] processed_lines
  end.

Definition front_matter (title : str) (created_date updated_date : datetime)
    (number : value) : str :=
  u "---" ++ [newline]
  ++ u "title: " ++ [dquote] ++ title ++ [dquote] ++ [newline]
  ++ u "date: " ++ strftime_full created_date ++ [newline]
  ++ u "last_modified_at: " ++ strftime_full updated_date ++ [newline]
  ++ u "categories: [Gitee Issues]" ++ [newline]
  ++ u "tags: [" ++ format_value number ++ u "]  # 使用issue编号作为tag"
  ++ [newline]
  ++ u "comments: true" ++ [newline]
  ++ u "---" ++ [newline]
  ++ [newline]
  ++ u "## 原始链接" ++ [newline]
  ++ [newline]
  ++ u "本文档从Gitee Issue自动生成，原文地址：[Issue #"
  ++ format_value number ++ u "](https://gitee.com/" ++ repo_owner
  ++ u "/" ++ repo_name ++ u "/issues/" ++ format_value number ++ u ")"
  ++ [newline]
  ++ [newline]
  ++ u "---" ++ [newline]
  ++ [newline].

(** The text standing in for an empty body. *)
Definition placeholder (title : str) : str :=
  u "**" ++ title ++ u "**" ++ [newline; newline]
  ++ u "> 此文章来自Gitee Issue，内容为空，已自动使用标题作为内容。".

(** The body section: the text appended to the front matter. *)
Definition body_section (title : str) (body : value) : result str :=
  b ← as_str AttributeError body;
  match strip isspace b with
  | [] => Ok (placeholder title)
  | _ => Ok (process_markdown b)
  end.

(** [issue.get('body', '') or ''] *)
Definition body_of (i : issue) : value :=
  let body := get_default i k_body (VStr []) in
  if truthy body then body else VStr [].

(** [convert_to_jekyll_post(issue)] *)
Definition convert_to_jekyll_post (now : datetime) (i : issue)
    : result (str * str) :=
  title ← getitem i k_title;
  let body := body_of i in
  created_at ← getitem i k_created_at;
  let updated_at := get_default i k_updated_at created_at in
  let number := get_default i k_number (VStr []) in
  created_date ← parse_timestamp created_at;
  updated_date ← parse_timestamp updated_at;
  let date_str := strftime_date created_date in
  title ← as_str TypeError title;
  let safe_title := sanitize_filename now title in
  let filename := date_str ++ [hyphen] ++ safe_title ++ u ".md" in
  let header := front_matter title created_date updated_date number in
  content ← body_section title body;
  Ok (filename, header ++ content).

(** ** The process state

    The destination directory maps a file name to the content of the
    file; standard output is the list of the lines printed so far. *)

Record state := {
  files : gmap str str;
  out : list str
}.

(** A computation reads and updates the state and returns or raises. *)
Definition M (A : Type) : Type := state -> result A * state.

#[global] Instance M_ret : MRet M := fun A a st => (Ok a, st).
#[global] Instance M_bind : MBind M := fun A B f m st =>
  match m st with
  | (Ok a, st') => f a st'
  | (Raise e, st') => (Raise e, st')
  end.

Definition lift {A} (r : result A) : M A := fun st => (r, st).

Definition print (line : str) : M unit := fun st =>
  (Ok tt, {| files := files st; out := out st ++ [line] |}).

(** ** The lines printed *)

Definition rule : str := repeat 61 50.

Definition msg_start : str := u "🚀 开始从Gitee Issues生成Jekyll文章...".

Definition msg_fetching : str :=
  u "正在获取 " ++ repo_owner ++ u "/" ++ repo_name ++ u " 的所有issues...".

Definition msg_fetched (n : nat) : str :=
  u "成功获取 " ++ str_of_N (N.of_nat n) ++ u " 个issues".

Definition msg_fetch_failed (e : str) : str := u "获取issues失败: " ++ e.

Definition msg_detail_failed (issue_number : value) (e : str) : str :=
  u "获取issue " ++ format_value issue_number ++ u " 内容失败: " ++ e.

Definition msg_saved (filename : str) : str :=
  u "✅ 成功生成文章: " ++ filename.

Definition msg_save_failed (filename e : str) : str :=
  u "❌ 保存文章失败 " ++ filename ++ u ": " ++ e.

Definition msg_no_issues : str := u "没有获取到任何issues，程序退出".

Definition msg_processing (number : value) (head : str) : str :=
  [newline] ++ u "📝 处理Issue #" ++ format_value number ++ u ": " ++ head
  ++ u "...".

Definition msg_exists (filename : str) : str :=
  u "⚠️  文章已存在，跳过: " ++ filename.

Definition msg_done_prefix : str :=
  Eval vm_compute in u "🎉 文章生成完成！共生成 ".

Definition msg_done (generated_count : nat) : str :=
  msg_done_prefix ++ str_of_N (N.of_nat generated_count) ++ u " 篇文章".

Definition msg_location (dir : str) : str := u "📁 文章保存位置: " ++ dir.

Definition msg_listing (n : nat) : str :=
  [newline] ++ u "📚 当前目录下的所有文章 (" ++ str_of_N (N.of_nat n)
  ++ u " 篇):".

Definition msg_entry (name : str) : str := u "  - " ++ name.

(** ** The fetcher

    What the network answers is given from outside: a call of
    [session.get] raises or returns a response; [response.json()] raises
    or returns the decoded body. *)

Record response (A : Type) := {
  status_code : Z;
  (** text of the [HTTPError] that [raise_for_status] builds *)
  error_text : str;
  json : result A
}.
Arguments status_code {A} _.
Arguments error_text {A} _.
Arguments json {A} _.

(** [response.raise_for_status()]: an [HTTPError], which is a
    [RequestException], for the client and server error codes. *)
Definition raise_for_status {A} (r : response A) : result unit :=
  if ((400 <=? status_code r) && (status_code r <? 600))%Z
  then Raise (RequestException (error_text r))
  else Ok tt.

(** The body of both [try] blocks. *)
Definition fetch_json {A} (answer : result (response A)) : result A :=
  r ← answer; _ ← raise_for_status r; json r.

(** [get_all_issues()] *)
Definition get_all_issues (answer : result (response (list issue)))
    : M (list issue) :=
  _ ← print msg_fetching;
  match fetch_json answer with
  | Ok issues =>
      _ ← print (msg_fetched (length issues));
      mret issues
  | Raise (RequestException e) =>
      _ ← print (msg_fetch_failed e);
      mret []
  | Raise e => lift (Raise e)
  end.

(** [get_issue_content(issue_number)]; [None] is Python's [None]. *)
Definition get_issue_content (answer : result (response issue))
    (issue_number : value) : M (option issue) :=
  match fetch_json answer with
  | Ok i => mret (Some i)
  | Raise (RequestException e) =>
      _ ← print (msg_detail_failed issue_number e);
      mret None
  | Raise e => lift (Raise e)
  end.

(** ** The writer *)

(** How [open] and [write] end: the content is written, or an exception
    is raised, leaving the file as it was or holding [partial]. *)
Inductive write_outcome :=
| Written
| WriteFailed (e : str) (partial : option str).

(** [save_article(filename, content)] *)
Definition save_article (w : write_outcome) (filename content : str)
    : M bool :=
  match w with
  | Written =>
      _ ← (fun st => (Ok tt, {| files := <[filename := content]> (files st);
                                out := out st |}));
      _ ← print (msg_saved filename);
      mret true
  | WriteFailed e partial =>
      _ ← (fun st =>
             (Ok tt, {| files := match partial with
                                 | Some p => <[filename := p]> (files st)
                                 | None => files st
                                 end;
                        out := out st |}));
      _ ← print (msg_save_failed filename e);
      mret false
  end.

(** [filepath.exists()] *)
Definition exists_file (filename : str) : M bool := fun st =>
  (Ok (bool_decide (is_Some (files st !! filename))), st).

(** ** The pipeline *)

(** What the outside world answers during one run. *)
Record world := {
  listing : result (response (list issue));
  (** the answers in the [k]-th iteration of the loop *)
  detail : nat -> result (response issue);
  clock : nat -> datetime;
  writing : nat -> write_outcome;
  (** [str(self.posts_dir)] *)
  posts_dir : str
}.

(** [title[:50]] *)
Definition slice50 (title : value) : result str :=
  s ← as_str TypeError title; Ok (take 50 s).

(** One iteration of the loop over the listed records; the result is the
    new value of [generated_count]. *)
Definition process_issue (w : world) (k : nat) (i : issue)
    (generated_count : nat) : M nat :=
  match i !! k_number with
  | None => mret generated_count
  | Some number =>
      if negb (truthy number) then mret generated_count
      else
        title ← lift (getitem i k_title);
        head ← lift (slice50 title);
        _ ← print (msg_processing number head);
        issue_detail ← get_issue_content (detail w k) number;
        match issue_detail with
        | None => mret generated_count
        | Some d =>
            if bool_decide (d = ∅) then mret generated_count
            else
              '(filename, content) ←
                 lift (convert_to_jekyll_post (clock w k) d);
              present ← exists_file filename;
              if present : bool then
                _ ← print (msg_exists filename);
                mret generated_count
              else
                saved ← save_article (writing w k) filename content;
                mret (if saved : bool then S generated_count
                      else generated_count)
        end
  end.

Fixpoint loop (w : world) (k : nat) (issues : list issue)
    (generated_count : nat) : M nat :=
  match issues with
  | [] => mret generated_count
  | i :: rest =>
      c ← process_issue w k i generated_count;
      loop w (S k) rest c
  end.

(** Lexicographic order on code points: the order of [sorted] on the
    paths of one directory. *)
Fixpoint str_leb (a b : str) : bool :=
  match a, b with
  | [], _ => true
  | _ :: _, [] => false
  | x :: a', y :: b' =>
      if x <? y then true else if x =? y then str_leb a' b' else false
  end.

Definition str_le (a b : str) : Prop := str_leb a b = true.

#[global] Instance str_le_dec (a b : str) : Decision (str_le a b).
Proof. unfold str_le. apply _. Defined.

Fixpoint ends_with (suffix s : str) : bool :=
  if bool_decide (s = suffix) then true
  else match s with
       | [] => false
       | _ :: s' => ends_with suffix s'
       end.

(** [posts_dir.glob("*.md")], as file names.  The order of the result is
    the directory's; the program sorts it before use. *)
Definition glob_md : M (list str) := fun st =>
  (Ok (List.filter (ends_with (u ".md")) (elements (dom (files st)))), st).

Fixpoint print_all (lines : list str) : M unit :=
  match lines with
  | [] => mret tt
  | l :: rest => _ ← print l; print_all rest
  end.

(** The statements after the loop. *)
Definition summary (w : world) (generated_count : nat) : M unit :=
  _ ← print ([newline] ++ rule);
  _ ← print (msg_done generated_count);
  _ ← print (msg_location (posts_dir w));
  md_files ← glob_md;
  match md_files with
  | [] => mret tt
  | _ =>
      _ ← print (msg_listing (length md_files));
      print_all (map msg_entry (merge_sort str_le md_files))
  end.

(** [generate_articles()] *)
Definition generate_articles (w : world) : M unit :=
  _ ← print msg_start;
  _ ← print rule;
  issues ← get_all_issues (listing w);
  match issues with
  | [] => print msg_no_issues
  | _ =>
      generated_count ← loop w 0 issues 0;
      summary w generated_count
  end.

(** ** Notions used in the statements *)

(** Length of the longest prefix of [s] in the class [p]. *)
Fixpoint run (p : char -> bool) (s : str) : nat :=
  match s with
  | c :: s' => if p c then S (run p s') else O
  | [] => O
  end.

(** No two hyphens in a row. *)
Fixpoint no_double (s : str) : bool :=
  match s with
  | a :: t =>
      negb ((a =? hyphen) && match t with b :: _ => b =? hyphen | [] => false end)
      && no_double t
  | [] => true
  end.

(** Some match of [r] begins somewhere in [s]. *)
Fixpoint has_match (r : regex) (s : str) : bool :=
  match match_here r s with
  | Some (S _) => true
  | _ => match s with
         | [] => false
         | _ :: s' => has_match r s'
         end
  end.

(** [r] matches exactly at the characters of the class [p], and never
    the empty text. *)
Definition selects (r : regex) (p : char -> bool) : Prop :=
  forall c s,
    if p c then exists n, match_here r (c :: s) = Some (S n)
    else match_here r (c :: s) = None.

(** A file name that [sanitize_filename] has nothing to do on. *)
Definition clean (s : str) : Prop :=
  Forall (fun c => forbidden c = false) s
  /\ Forall (fun c => isspace c = false) s
  /\ no_double s = true
  /\ (forall c, head s = Some c -> is_char hyphen c = false)
  /\ (forall c, last s = Some c -> is_char hyphen c = false)
  /\ s <> [].

Definition is_digit (c : char) : bool := (48 <=? c) && (c <=? 57).

(** The pattern [article-<14-digit-timestamp>] read to the letter: the
    prefix, then fourteen digits. *)
Definition article_14_digits (s : str) : bool :=
  bool_decide (take 8 s = u "article-")
  && bool_decide (length (drop 8 s) = 14%nat)
  && forallb is_digit (drop 8 s).

(** The shape [article-YYYYMMDD-HHMMSS]: the prefix, eight digits, a
    hyphen, six digits. *)
Definition article_stamp (s : str) : bool :=
  bool_decide (take 8 s = u "article-")
  && bool_decide (length s = 23%nat)
  && forallb is_digit (take 8 (drop 8 s))
  && bool_decide (s !! 16%nat = Some hyphen)
  && forallb is_digit (drop 17 s).

(** The pass of [process_markdown] over one line. *)
Definition remove_images (line : str) : str := re_sub re_image [] line.

(** An inline image: bang, alternative text in brackets, address in
    parentheses. *)
Definition image (alt url : str) : str :=
  [33; 91] ++ alt ++ [93; 40] ++ url ++ [41].

(** No closing bracket directly followed by an opening parenthesis. *)
Fixpoint no_close (s : str) : bool :=
  match s with
  | a :: t =>
      negb ((a =? 93) && match t with b :: _ => b =? 40 | [] => false end)
      && no_close t
  | [] => true
  end.

(** The record of the Hello World scenario and its two instants. *)
Definition hello : issue :=
  <[k_number := VInt 42]>
    (<[k_title := VStr (u "Hello World")]>
       (<[k_body := VStr (u "some text")]>
          (<[k_created_at := VStr (u "2023-01-15T10:30:00Z")]>
             (<[k_updated_at := VStr (u "2023-01-16T08:00:00Z")]> ∅)))).

Definition hello_created : datetime :=
  {| year := 2023; month := 1; day := 15; hour := 10; minute := 30;
     second := 0; utcoffset := Some (false, 0) |}.

Definition hello_updated : datetime :=
  {| year := 2023; month := 1; day := 16; hour := 8; minute := 0;
     second := 0; utcoffset := Some (false, 0) |}.

Definition hello_header : str :=
  front_matter (u "Hello World") hello_created hello_updated (VInt 42).

(** The record of the empty-body scenarios: [body] holds the given
    value. *)
Definition hello_with_body (body : value) : issue :=
  <[k_body := body]> hello.

(** A failure of the transport, carrying the text [msg]: [session.get]
    raises a [RequestException], or the response has a client or server
    error code. *)
Definition http_failure {A} (answer : result (response A)) (msg : str)
    : Prop :=
  answer = Raise (RequestException msg)
  \/ exists r, answer = Ok r /\ (400 <= status_code r < 600)%Z
               /\ msg = error_text r.

(** A response outside the success range. *)
Definition non_2xx {A} (r : response A) : bool :=
  negb ((200 <=? status_code r) && (status_code r <? 300))%Z.

(** An empty directory and nothing printed. *)
Definition st0 : state := {| files := ∅; out := [] |}.

(** State [st] after the lines [ls] are printed. *)
Definition printed (st : state) (ls : list str) : state :=
  {| files := files st; out := out st ++ ls |}.

(** A response with code 300 that carries one record. *)
Definition multiple_choices {A} (body : A) : response A :=
  {| status_code := 300; error_text := []; json := Ok body |}.

(** The names of the documents of a directory. *)
Definition md_names (fs : gmap str str) : list str :=
  List.filter (ends_with (u ".md")) (elements (dom fs)).

(** The lines of the summary for a count and a directory. *)
Definition summary_lines (w : world) (generated_count : nat)
    (fs : gmap str str) : list str :=
  [[newline] ++ rule; msg_done generated_count; msg_location (posts_dir w)]
  ++ match md_names fs with
     | [] => []
     | md => msg_listing (length md)
             :: map msg_entry (merge_sort str_le md)
     end.

Fixpoint starts_with (pre s : str) : bool :=
  match pre, s with
  | [], _ => true
  | a :: pre', b :: s' => (a =? b) && starts_with pre' s'
  | _ :: _, [] => false
  end.

(** Some printed line reports the count of the summary. *)
Definition reports_count (lines : list str) : bool :=
  existsb (starts_with msg_done_prefix) lines.

(** A world whose listing succeeds with [issues] and in which every
    detail request fails and no write fails. *)
Definition quiet_world (issues : list issue) : world :=
  {| listing := Ok {| status_code := 200; error_text := [];
                      json := Ok issues |};
     detail := fun _ => Raise (RequestException (u "timeout"));
     clock := fun _ => hello_created;
     writing := fun _ => Written;
     posts_dir := u "_posts" |}.

(** What one iteration does to the directory and to the count [c]: it
    leaves both (or raises); it writes a file that did not exist and
    counts it; or a write fails on a file that did not exist, the count
    stays and the file is absent or partial. *)
Inductive step_effect (w : world) (k : nat) (c : nat) (st : state)
    : result nat -> state -> Prop :=
| effect_none (r : result nat) (st' : state) :
    files st' = files st ->
    (forall c', r = Ok c' -> c' = c) ->
    step_effect w k c st r st'
| effect_written (filename content : str) (st' : state) :
    files st !! filename = None ->
    writing w k = Written ->
    files st' = <[filename := content]> (files st) ->
    step_effect w k c st (Ok (S c)) st'
| effect_failed (filename e : str) (partial : option str) (st' : state) :
    files st !! filename = None ->
    writing w k = WriteFailed e partial ->
    files st' = match partial with
                | Some p => <[filename := p]> (files st)
                | None => files st
                end ->
    step_effect w k c st (Ok c) st'.

(** A world in which the detail request answers with [d]. *)
Definition answering_world (d : issue) : world :=
  {| listing := Ok {| status_code := 200; error_text := [];
                      json := Ok [d] |};
     detail := fun _ => Ok {| status_code := 200; error_text := [];
                              json := Ok d |};
     clock := fun _ => hello_created;
     writing := fun _ => Written;
     posts_dir := u "_posts" |}.

(** A directory that already holds the document of the Hello World
    record, with some other content. *)
Definition st_published : state :=
  {| files := {[ u "2023-01-15-Hello-World.md" := u "kept" ]}; out := [] |}.

(** A character of a word: not removed by the first step, not
    whitespace, not a hyphen. *)
Definition plain (c : char) : bool :=
  negb (forbidden c) && negb (isspace c) && negb (c =? hyphen).

(** A word is a non-empty run of such characters; a gap is a non-empty
    run of whitespace. *)
Definition is_word (w : str) : Prop :=
  w <> [] /\ Forall (fun c => plain c = true) w.

Definition is_gap (g : str) : Prop :=
  g <> [] /\ Forall (fun c => isspace c = true) g.

(** The words [w0], [w1], ... with the gap [g1] before [w1] and so on. *)
Fixpoint spaced (w0 : str) (rest : list (str * str)) : str :=
  match rest with
  | [] => w0
  | (g, w) :: rest' => w0 ++ g ++ spaced w rest'
  end.

(** The same words joined by single hyphens. *)
Fixpoint hyphenated (w0 : str) (rest : list (str * str)) : str :=
  match rest with
  | [] => w0
  | (_, w) :: rest' => w0 ++ hyphen :: hyphenated w rest'
  end.

(** Every gap is a gap and every word a word. *)
Definition well_spaced (rest : list (str * str)) : Prop :=
  Forall (fun gw => is_gap gw.1 /\ is_word gw.2) rest.

(** The exceptions that the two [except] clauses of the fetcher catch. *)
Definition is_request_exception (e : exn) : bool :=
  match e with
  | RequestException _ => true
  | _ => false
  end.

(** A world whose listing answers with code 200 and a body that does not
    decode, the decoder raising [e]. *)
Definition undecodable_world (e : exn) : world :=
  {| listing := Ok {| status_code := 200; error_text := [];
                      json := Raise e |};
     detail := fun _ => Raise (RequestException (u "timeout"));
     clock := fun _ => hello_created;
     writing := fun _ => Written;
     posts_dir := u "_posts" |}.


(** The instant [d] taken as a time in UTC. *)
Definition as_utc (d : datetime) : datetime :=
  {| year := year d; month := month d; day := day d; hour := hour d;
     minute := minute d; second := second d; utcoffset := Some (false, 0) |}.

(** The second world names the documents as the first: wherever a
    detail has a text title, the clocks agree or the title does not strip
    to nothing. *)
Definition same_names (w w' : world) : Prop :=
  forall k d title,
    fetch_json (detail w k) = Ok d ->
    d !! k_title = Some (VStr title) ->
    clock w' k = clock w k \/ stripped_title title <> [].

(** The world of [answering_world] a day later, on a disk that takes no
    write. *)
Definition later_world (d : issue) : world :=
  {| listing := listing (answering_world d);
     detail := detail (answering_world d);
     clock := fun _ => hello_updated;
     writing := fun _ => WriteFailed (u "read-only") None;
     posts_dir := u "_posts" |}.

(** The lines of the header, in order. *)
Definition header_lines (title : str) (created_date updated_date : datetime)
    (number : value) : list str :=
  [ u "---";
    u "title: " ++ [dquote] ++ title ++ [dquote];
    u "date: " ++ strftime_full created_date;
    u "last_modified_at: " ++ strftime_full updated_date;
    u "categories: [Gitee Issues]";
    u "tags: [" ++ format_value number ++ u "]  # 使用issue编号作为tag";
    u "comments: true";
    u "---";
    [];
    u "## 原始链接";
    [];
    u "本文档从Gitee Issue自动生成，原文地址：[Issue #"
    ++ format_value number ++ u "](https://gitee.com/" ++ repo_owner
    ++ u "/" ++ repo_name ++ u "/issues/" ++ format_value number ++ u ")";
    [];
    u "---";
    [] ].

(** ** Properties of the text primitives *)

Section Strip.
Variable p : char -> bool.

Lemma lstrip_split (s : str) :
  exists pre, s = pre ++ lstrip p s /\ Forall (fun c => p c = true) pre.
Proof.
  induction s as [|c s IH]; simpl.
  - exists []. split; [reflexivity | constructor].
  - destruct (p c) eqn:E.
    + destruct IH as (pre & Hs & Hp). exists (c :: pre). split.
      * simpl. congruence.
      * constructor; assumption.
    + exists []. split; [reflexivity | constructor].
Qed.

Lemma lstrip_head (s : str) (c : char) :
  head (lstrip p s) = Some c -> p c = false.
Proof.
  induction s as [|x s IH]; simpl; [discriminate|].
  destruct (p x) eqn:E; [exact IH|].
  simpl. intros [= <-]. exact E.
Qed.

Lemma lstrip_id (s : str) :
  (forall c, head s = Some c -> p c = false) -> lstrip p s = s.
Proof.
  destruct s as [|x s]; simpl; [reflexivity|].
  intros H. rewrite (H x eq_refl). reflexivity.
Qed.

Lemma rstrip_split (s : str) :
  exists post, s = rstrip p s ++ post /\ Forall (fun c => p c = true) post.
Proof.
  unfold rstrip. destruct (lstrip_split (reverse s)) as (pre & Hs & Hp).
  exists (reverse pre). split.
  - rewrite <- reverse_app, <- Hs, reverse_involutive. reflexivity.
  - apply Forall_reverse. exact Hp.
Qed.

Lemma rstrip_last (s : str) (c : char) :
  last (rstrip p s) = Some c -> p c = false.
Proof.
  unfold rstrip. rewrite last_reverse. apply lstrip_head.
Qed.

Lemma rstrip_id (s : str) :
  (forall c, last s = Some c -> p c = false) -> rstrip p s = s.
Proof.
  intros H. unfold rstrip. rewrite lstrip_id.
  - apply reverse_involutive.
  - intros c Hc. apply H. rewrite <- (reverse_involutive s).
    rewrite last_reverse. exact Hc.
Qed.

Lemma rstrip_head (s : str) (c : char) :
  head (rstrip p s) = Some c -> head s = Some c.
Proof.
  destruct (rstrip_split s) as (post & Hs & _).
  destruct (rstrip p s) as [|x t]; simpl; [discriminate|].
  intros [= <-]. rewrite Hs. reflexivity.
Qed.

Lemma strip_fixed (s : str) :
  (forall c, head s = Some c -> p c = false) ->
  (forall c, last s = Some c -> p c = false) ->
  strip p s = s.
Proof.
  intros Hh Hl. unfold strip. rewrite (lstrip_id s Hh). apply rstrip_id, Hl.
Qed.

Lemma strip_split (s : str) :
  exists pre post, s = pre ++ strip p s ++ post
    /\ Forall (fun c => p c = true) pre /\ Forall (fun c => p c = true) post.
Proof.
  destruct (lstrip_split s) as (pre & Hs & Hp).
  destruct (rstrip_split (lstrip p s)) as (post & Ht & Hq).
  exists pre, post. unfold strip. rewrite <- Ht. auto.
Qed.

Lemma strip_Forall (P : char -> Prop) (s : str) :
  Forall P s -> Forall P (strip p s).
Proof.
  destruct (strip_split s) as (pre & post & Hs & _). intros H.
  rewrite Hs in H. apply Forall_app in H as [_ H].
  apply Forall_app in H as [H _]. exact H.
Qed.

(** A text made of stripped characters only strips to nothing. *)
Lemma strip_all (s : str) :
  Forall (fun c => p c = true) s -> strip p s = [].
Proof.
  intros H. unfold strip.
  assert (E : lstrip p s = []).
  { induction H as [|c s Hc _ IH]; simpl; [reflexivity|].
    rewrite Hc. exact IH. }
  rewrite E. reflexivity.
Qed.
End Strip.

(** ** Properties of the substitution *)

(** A match lies within the text. *)
Lemma match_here_length (r : regex) :
  forall (s : str) (n : nat), match_here r s = Some n -> (n <= length s)%nat.
Proof.
  induction r as [|a r IH]; intros s n.
  - simpl. intros [= <-]. lia.
  - destruct a as [p|p|p].
    + destruct s as [|c s]; cbn [match_here]; [discriminate|].
      destruct (p c); [|discriminate].
      destruct (match_here r s) as [m|] eqn:E; [|discriminate].
      intros [= <-]. apply IH in E. simpl. lia.
    + cbn [match_here]. revert n.
      induction s as [|c s IHs]; intros n; cbn [greedy_plus]; [discriminate|].
      destruct (p c); [|discriminate].
      destruct (greedy_plus p (match_here r) s) as [m|].
      * intros [= <-]. specialize (IHs m eq_refl). simpl. lia.
      * destruct (match_here r s) as [m|] eqn:E; [|discriminate].
        intros [= <-]. apply IH in E. simpl. lia.
    + cbn [match_here]. revert n.
      induction s as [|c s IHs]; intros n; cbn [lazy_star].
      * destruct (match_here r []) as [m|] eqn:E; [|discriminate].
        intros [= <-]. apply IH in E. exact E.
      * destruct (match_here r (c :: s)) as [m|] eqn:E.
        { intros [= <-]. apply IH in E. exact E. }
        destruct (p c); [|discriminate].
        destruct (lazy_star p (match_here r) s) as [m|]; [|discriminate].
        intros [= <-]. specialize (IHs m eq_refl). simpl. lia.
Qed.

Lemma sub_from_skip (r : regex) (repl : str) (k : nat) (s : str) :
  sub_from r repl k s = sub_from r repl 0 (drop k s).
Proof.
  revert k. induction s as [|c s IH]; intros [|k]; try reflexivity.
  simpl. apply IH.
Qed.

Lemma sub_from_Forall (P : char -> Prop) (r : regex) (repl : str) :
  Forall P repl ->
  forall s k, Forall P s -> Forall P (sub_from r repl k s).
Proof.
  intros Hr. induction s as [|c s IH]; intros k Hs; simpl; [constructor|].
  inversion Hs as [|? ? Hc Hs']; subst.
  destruct k as [|k]; [|apply IH, Hs'].
  destruct (match_here r (c :: s)) as [[|n]|].
  - constructor; [exact Hc | apply IH, Hs'].
  - apply Forall_app. split; [exact Hr | apply IH, Hs'].
  - constructor; [exact Hc | apply IH, Hs'].
Qed.

(** A pattern that begins with a one-character atom or with a greedy
    repetition matches no empty text: the case left out of [sub_from]
    does not arise for the patterns of the program. *)
Lemma match_here_not_empty (a : atom) (r : regex) (s : str) :
  (forall p, a <> StarLazy p) -> match_here (a :: r) s <> Some O.
Proof.
  intros Ha. destruct a as [p|p|p]; [| |exfalso; exact (Ha p eq_refl)];
    cbn [match_here]; destruct s as [|c s]; cbn [greedy_plus];
    try discriminate; destruct (p c); try discriminate.
  - destruct (match_here r s); discriminate.
  - destruct (greedy_plus p (match_here r) s); [discriminate|].
    destruct (match_here r s); discriminate.
Qed.

(** With an empty replacement the substitution only deletes. *)
Lemma sub_from_sublist (r : regex) (s : str) (k : nat) :
  sublist (sub_from r [] k s) s.
Proof.
  revert k. induction s as [|c s IH]; intros k; simpl; [constructor|].
  destruct k as [|k]; [|apply sublist_cons, IH].
  destruct (match_here r (c :: s)) as [[|n]|]; simpl.
  - apply sublist_skip, IH.
  - apply sublist_cons, IH.
  - apply sublist_skip, IH.
Qed.

Lemma has_match_cons (r : regex) (c : char) (s : str) :
  has_match r (c :: s) = false ->
  (forall n, match_here r (c :: s) <> Some (S n)) /\ has_match r s = false.
Proof.
  cbn [has_match]. destruct (match_here r (c :: s)) as [[|n]|]; intros H.
  - split; [intros n; discriminate | exact H].
  - discriminate.
  - split; [intros n; discriminate | exact H].
Qed.

(** A text in which no match begins is left as it is. *)
Lemma sub_from_no_match (r : regex) (repl : str) (s : str) :
  has_match r s = false -> sub_from r repl 0 s = s.
Proof.
  induction s as [|c s IH]; intros H; [reflexivity|].
  apply has_match_cons in H as [Hm Hs]. cbn [sub_from].
  destruct (match_here r (c :: s)) as [[|n]|] eqn:E.
  - f_equal. apply IH, Hs.
  - exfalso. exact (Hm n eq_refl).
  - f_equal. apply IH, Hs.
Qed.

Lemma match_plus (p : char -> bool) (s : str) :
  match_here [PlusGreedy p] s =
  match run p s with O => None | S n => Some (S n) end.
Proof.
  induction s as [|c s IH]; [reflexivity|].
  cbn [match_here greedy_plus run] in *. destruct (p c); [|reflexivity].
  rewrite IH. destruct (run p s); reflexivity.
Qed.

Lemma selects_One (p : char -> bool) : selects [One p] p.
Proof.
  intros c s. cbn [match_here]. destruct (p c); [|reflexivity].
  exists O. reflexivity.
Qed.

Lemma selects_Plus (p : char -> bool) : selects [PlusGreedy p] p.
Proof.
  intros c s. rewrite match_plus. cbn [run]. destruct (p c); [|reflexivity].
  exists (run p s). reflexivity.
Qed.

Section Selects.
Variables (r : regex) (p : char -> bool) (repl : str).
Hypothesis Hsel : selects r p.

Lemma selects_has_match (s : str) :
  Forall (fun c => p c = false) s -> has_match r s = false.
Proof.
  induction 1 as [|c s Hc _ IH]; cbn [has_match].
  - destruct (match_here r []) as [[|n]|] eqn:E; try reflexivity.
    apply match_here_length in E. simpl in E. lia.
  - pose proof (Hsel c s) as H. rewrite Hc in H. rewrite H. exact IH.
Qed.

Lemma selects_id (s : str) :
  Forall (fun c => p c = false) s -> sub_from r repl 0 s = s.
Proof. intros H. apply sub_from_no_match, selects_has_match, H. Qed.

(** Nothing of the class is left, when the replacement has none. *)
Lemma selects_removed (s : str) (k : nat) :
  Forall (fun c => p c = false) repl ->
  Forall (fun c => p c = false) (sub_from r repl k s).
Proof.
  intros Hr. revert k. induction s as [|c s IH]; intros k; simpl;
    [constructor|].
  destruct k as [|k]; [|apply IH].
  pose proof (Hsel c s) as H. destruct (p c) eqn:E.
  - destruct H as (n & ->). apply Forall_app. split; [exact Hr | apply IH].
  - rewrite H. constructor; [exact E | apply IH].
Qed.
End Selects.

(** ** Properties of [sanitize_filename] *)

Ltac bool_lia :=
  repeat match goal with
    | |- context [N.eqb ?a ?b] =>
        first [ replace (N.eqb a b) with true
                  by (symmetry; apply N.eqb_eq; lia)
              | replace (N.eqb a b) with false
                  by (symmetry; apply N.eqb_neq; lia) ]
    | |- context [N.leb ?a ?b] =>
        first [ replace (N.leb a b) with true
                  by (symmetry; apply N.leb_le; lia)
              | replace (N.leb a b) with false
                  by (symmetry; apply N.leb_gt; lia) ]
    end;
  reflexivity.

Lemma digit_range (n : N) : 48 <= digit n <= 57.
Proof.
  unfold digit. assert (H : n mod 10 < 10) by (apply N.mod_lt; discriminate).
  revert H. generalize (n mod 10). intros x H. lia.
Qed.

Lemma digit_is_digit (n : N) : is_digit (digit n) = true.
Proof. pose proof (digit_range n). unfold is_digit. bool_lia. Qed.

Lemma is_digit_forbidden (c : char) : is_digit c = true -> forbidden c = false.
Proof.
  unfold is_digit. intros H. apply andb_true_iff in H as [H1 H2].
  apply N.leb_le in H1, H2. unfold forbidden. bool_lia.
Qed.

Lemma is_digit_isspace (c : char) : is_digit c = true -> isspace c = false.
Proof.
  unfold is_digit. intros H. apply andb_true_iff in H as [H1 H2].
  apply N.leb_le in H1, H2. unfold isspace. bool_lia.
Qed.

Lemma is_digit_hyphen (c : char) : is_digit c = true -> (c =? hyphen) = false.
Proof.
  unfold is_digit. intros H. apply andb_true_iff in H as [H1 H2].
  apply N.leb_le in H1, H2. unfold hyphen. bool_lia.
Qed.

Lemma u_article : u "article-" = [97; 114; 116; 105; 99; 108; 101; 45].
Proof. reflexivity. Qed.

Lemma drop_run (p : char -> bool) (s : str) : drop (run p s) s = lstrip p s.
Proof.
  induction s as [|c s IH]; [reflexivity|]. simpl.
  destruct (p c); [exact IH | reflexivity].
Qed.

Lemma no_double_app (a b : str) :
  no_double (a ++ b) = true -> no_double a = true /\ no_double b = true.
Proof.
  induction a as [|x a IH]; [intros H; split; [reflexivity | exact H]|].
  cbn [app no_double]. intros H. apply andb_true_iff in H as [H1 H2].
  destruct (IH H2) as [Ha Hb]. split; [|exact Hb].
  apply andb_true_iff. split; [|exact Ha].
  destruct a as [|y a]; [|exact H1].
  rewrite andb_false_r. reflexivity.
Qed.

Lemma collapse_head (t : str) :
  (forall c, head t = Some c -> is_char hyphen c = false) ->
  forall c, head (sub_from re_hyphens [hyphen] 0 t) = Some c ->
            is_char hyphen c = false.
Proof.
  destruct t as [|x t]; [discriminate|]. intros H c.
  pose proof (H x eq_refl) as Hx. unfold re_hyphens. cbn [sub_from].
  rewrite match_plus. cbn [run]. rewrite Hx. simpl. intros [= <-]. exact Hx.
Qed.

(** After the third step no two hyphens are adjacent. *)
Lemma collapse_no_double (s : str) (k : nat) :
  no_double (sub_from re_hyphens [hyphen] k s) = true.
Proof.
  revert k. induction s as [|c s IH]; intros k; [reflexivity|].
  cbn [sub_from]. destruct k as [|k]; [|apply IH].
  unfold re_hyphens. rewrite match_plus. cbn [run].
  destruct (is_char hyphen c) eqn:E.
  - cbn [app no_double]. fold re_hyphens. rewrite IH, andb_true_r.
    rewrite sub_from_skip, drop_run.
    destruct (sub_from re_hyphens [hyphen] 0 (lstrip (is_char hyphen) s))
      as [|b t] eqn:F; [rewrite andb_false_r; reflexivity|].
    assert (Hb : is_char hyphen b = false).
    { apply (collapse_head (lstrip (is_char hyphen) s)).
      - apply lstrip_head.
      - rewrite F. reflexivity. }
    unfold is_char in Hb. rewrite Hb, andb_false_r. reflexivity.
  - cbn [no_double]. fold re_hyphens. rewrite IH, andb_true_r.
    unfold is_char in E. rewrite E. reflexivity.
Qed.

(** Where no two hyphens are adjacent the third step changes nothing. *)
Lemma collapse_id (s : str) :
  no_double s = true -> re_sub re_hyphens [hyphen] s = s.
Proof.
  unfold re_sub. induction s as [|c s IH]; [reflexivity|].
  cbn [no_double]. intros H. apply andb_true_iff in H as [H1 H2].
  cbn [sub_from]. unfold re_hyphens. rewrite match_plus. cbn [run].
  fold re_hyphens. unfold is_char. destruct (c =? hyphen) eqn:E.
  - apply N.eqb_eq in E. subst c.
    assert (R : run (fun x => x =? hyphen) s = O).
    { destruct s as [|b s]; [reflexivity|]. simpl in H1 |- *.
      destruct (b =? hyphen); [discriminate | reflexivity]. }
    rewrite R. simpl. f_equal. apply IH, H2.
  - f_equal. apply IH, H2.
Qed.

Lemma clean_fixed (now : datetime) (s : str) :
  clean s -> sanitize_filename now s = s.
Proof.
  intros (Hf & Hs & Hd & Hh & Hl & Hne). unfold sanitize_filename, re_sub.
  rewrite (selects_id re_forbidden forbidden [] (selects_One _) s Hf).
  rewrite (selects_id re_spaces isspace [hyphen] (selects_Plus _) s Hs).
  fold (re_sub re_hyphens [hyphen] s). rewrite (collapse_id s Hd).
  rewrite (strip_fixed _ s Hh Hl). destruct s; [contradiction | reflexivity].
Qed.

Lemma stripped_title_clean (title : str) :
  stripped_title title <> [] -> clean (stripped_title title).
Proof.
  intros Hne. unfold stripped_title, re_sub in *.
  set (c1 := sub_from re_forbidden [] 0 title) in *.
  set (c2 := sub_from re_spaces [hyphen] 0 c1) in *.
  set (c3 := sub_from re_hyphens [hyphen] 0 c2) in *.
  assert (F1 : Forall (fun c => forbidden c = false) c1).
  { apply (selects_removed re_forbidden forbidden [] (selects_One _)).
    constructor. }
  assert (F3 : Forall (fun c => forbidden c = false) c3).
  { apply sub_from_Forall; [repeat constructor|].
    apply sub_from_Forall; [repeat constructor | exact F1]. }
  assert (S2 : Forall (fun c => isspace c = false) c2).
  { apply (selects_removed re_spaces isspace [hyphen] (selects_Plus _)).
    repeat constructor. }
  assert (S3 : Forall (fun c => isspace c = false) c3).
  { apply sub_from_Forall; [repeat constructor | exact S2]. }
  assert (D3 : no_double c3 = true) by apply collapse_no_double.
  repeat split.
  - apply strip_Forall, F3.
  - apply strip_Forall, S3.
  - destruct (strip_split (is_char hyphen) c3) as (pre & post & E & _).
    rewrite E in D3. apply no_double_app in D3 as [_ D3].
    apply no_double_app in D3 as [D3 _]. exact D3.
  - intros c Hc. unfold strip in Hc. apply rstrip_head in Hc.
    apply lstrip_head in Hc. exact Hc.
  - intros c Hc. unfold strip in Hc. apply rstrip_last in Hc. exact Hc.
  - exact Hne.
Qed.

Lemma sanitize_filename_cases (now : datetime) (title : str) :
  (stripped_title title = []
   /\ sanitize_filename now title = u "article-" ++ strftime_compact now)
  \/ (stripped_title title <> []
      /\ sanitize_filename now title = stripped_title title).
Proof.
  unfold sanitize_filename. fold (stripped_title title).
  destruct (stripped_title title) as [|c t]; [left | right]; split;
    try reflexivity; discriminate.
Qed.

Lemma fallback_clean (now : datetime) :
  clean (u "article-" ++ strftime_compact now).
Proof.
  rewrite u_article. unfold strftime_compact, pad4, pad2. cbn [app].
  assert (Hh : forall n, (digit n =? hyphen) = false)
    by (intros n; apply is_digit_hyphen, digit_is_digit).
  repeat split.
  - repeat (constructor;
            [first [reflexivity | apply is_digit_forbidden, digit_is_digit]|]).
    constructor.
  - repeat (constructor;
            [first [reflexivity | apply is_digit_isspace, digit_is_digit]|]).
    constructor.
  - cbn [no_double]. rewrite !Hh. reflexivity.
  - intros c [= <-]. reflexivity.
  - intros c. cbn. intros [= <-]. apply Hh.
  - discriminate.
Qed.

Lemma sanitize_filename_clean (now : datetime) (title : str) :
  clean (sanitize_filename now title).
Proof.
  destruct (sanitize_filename_cases now title) as [[_ ->]|[Hne ->]].
  - apply fallback_clean.
  - apply stripped_title_clean, Hne.
Qed.

(** ** Properties of [process_markdown] *)

Lemma fold_left_snoc {A B} (f : A -> B) (l : list A) (acc : list B) :
  fold_left (fun acc x => acc ++ [f x]) l acc = acc ++ map f l.
Proof.
  revert acc. induction l as [|x l IH]; intros acc; simpl.
  - symmetry. apply app_nil_r.
  - rewrite IH, <- app_assoc. reflexivity.
Qed.

Lemma split_not_nil (c : char) (s : str) : split c s <> [].
Proof.
  induction s as [|x s IH]; simpl; [discriminate|].
  destruct (x =? c); [discriminate|].
  destruct (split c s); discriminate.
Qed.

(** The pieces of a split hold no separator. *)
Lemma split_pieces (c : char) (s : str) :
  Forall (Forall (fun x => x <> c)) (split c s).
Proof.
  induction s as [|x s IH]; simpl; [repeat constructor|].
  destruct (N.eqb_spec x c) as [->|Hx].
  - constructor; [constructor | exact IH].
  - destruct (split c s) as [|l ls]; [repeat constructor; exact Hx|].
    inversion IH; subst. constructor; [constructor; assumption | assumption].
Qed.

Lemma split_line (c : char) (l : str) :
  Forall (fun x => x <> c) l -> split c l = [l].
Proof.
  induction 1 as [|x l Hx _ IH]; [reflexivity|]. simpl.
  apply N.eqb_neq in Hx. rewrite Hx, IH. reflexivity.
Qed.

Lemma split_app (c : char) (l rest : str) :
  Forall (fun x => x <> c) l ->
  split c (l ++ c :: rest) = l :: split c rest.
Proof.
  induction 1 as [|x l Hx _ IH]; simpl.
  - rewrite N.eqb_refl. reflexivity.
  - apply N.eqb_neq in Hx. rewrite Hx, IH. reflexivity.
Qed.

Lemma split_join (c : char) (ls : list str) :
  ls <> [] -> Forall (Forall (fun x => x <> c)) ls ->
  split c (join [c] ls) = ls.
Proof.
  induction ls as [|l ls IH]; [contradiction|]. intros _ H.
  inversion H as [|? ? Hl Hls]; subst.
  destruct ls as [|l' ls].
  - simpl. apply split_line, Hl.
  - change (join [c] (l :: l' :: ls)) with (l ++ c :: join [c] (l' :: ls)).
    rewrite (split_app c l _ Hl), IH; [reflexivity | discriminate | exact Hls].
Qed.

Lemma join_split (c : char) (s : str) : join [c] (split c s) = s.
Proof.
  induction s as [|x s IH]; [reflexivity|]. simpl.
  destruct (N.eqb_spec x c) as [->|Hx].
  - pose proof (split_not_nil c s) as Hn.
    destruct (split c s) as [|l ls]; [contradiction|].
    change (join [c] ([] :: l :: ls)) with (c :: join [c] (l :: ls)).
    rewrite IH. reflexivity.
  - pose proof (split_not_nil c s) as Hn.
    destruct (split c s) as [|l ls]; [contradiction|].
    rewrite <- IH. destruct ls; reflexivity.
Qed.

Lemma process_markdown_map (s : str) :
  process_markdown s = join [newline] (map remove_images (split newline s)).
Proof.
  destruct s as [|c s]; [reflexivity|]. unfold process_markdown.
  rewrite fold_left_snoc. reflexivity.
Qed.

Lemma sublist_Forall_keep {A} (P : A -> Prop) (l k : list A) :
  sublist l k -> Forall P k -> Forall P l.
Proof.
  induction 1 as [|x l k _ IH|x l k _ IH]; intros H.
  - constructor.
  - inversion H; subst. constructor; auto.
  - inversion H; subst. auto.
Qed.

Lemma remove_images_sublist (line : str) : sublist (remove_images line) line.
Proof. apply sub_from_sublist. Qed.

Lemma process_markdown_split (s : str) :
  split newline (process_markdown s) = map remove_images (split newline s).
Proof.
  rewrite process_markdown_map. apply split_join.
  - pose proof (split_not_nil newline s). destruct (split newline s);
      [contradiction | discriminate].
  - apply Forall_fmap. eapply Forall_impl; [apply split_pieces|].
    intros l Hl. simpl. eapply sublist_Forall_keep;
      [apply remove_images_sublist | exact Hl].
Qed.

Lemma lazy_star_done (p : char -> bool) (k : str -> option nat) (t : str)
    (n : nat) :
  k t = Some n -> lazy_star p k t = Some n.
Proof. intros H. destruct t; simpl; rewrite H; reflexivity. Qed.

Lemma lazy_star_step (p : char -> bool) (k : str -> option nat) (c : char)
    (t : str) :
  k (c :: t) = None -> p c = true ->
  lazy_star p k (c :: t) = S <$> lazy_star p k t.
Proof. intros H Hp. cbn [lazy_star]. rewrite H, Hp. reflexivity. Qed.

Lemma lazy_url (url post : str) :
  Forall (fun c => dot c = true /\ c <> 41) url ->
  lazy_star dot (match_here [One (is_char 41)]) (url ++ 41 :: post)
  = Some (length url + 1)%nat.
Proof.
  induction 1 as [|c t [Hd Hc] _ IH].
  - apply lazy_star_done. reflexivity.
  - cbn [app]. rewrite lazy_star_step; [rewrite IH; reflexivity | | exact Hd].
    cbn [match_here]. unfold is_char. apply N.eqb_neq in Hc.
    rewrite Hc. reflexivity.
Qed.

Lemma lazy_alt (alt url post : str) :
  no_close alt = true ->
  Forall (fun c => dot c = true) alt ->
  Forall (fun c => dot c = true /\ c <> 41) url ->
  lazy_star dot
    (match_here [One (is_char 93); One (is_char 40); StarLazy dot;
                 One (is_char 41)])
    (alt ++ 93 :: 40 :: url ++ 41 :: post)
  = Some (length alt + (2 + (length url + 1)))%nat.
Proof.
  intros Hc Hl Hurl. pose proof (lazy_url url post Hurl) as Hu.
  induction alt as [|c t IH].
  - apply lazy_star_done. cbn [app].
    change (match_here
              [One (is_char 93); One (is_char 40); StarLazy dot;
               One (is_char 41)] (93 :: 40 :: url ++ 41 :: post))
      with (S <$> (S <$> lazy_star dot (match_here [One (is_char 41)])
                           (url ++ 41 :: post))).
    rewrite Hu. reflexivity.
  - inversion Hl as [|? ? Hd Hl']; subst.
    cbn [no_close] in Hc. apply andb_true_iff in Hc as [Hc1 Hc2].
    cbn [app].
    rewrite lazy_star_step; [rewrite (IH Hc2 Hl'); reflexivity | | exact Hd].
    cbn [match_here]. unfold is_char at 1.
    destruct (c =? 93) eqn:E; [|reflexivity].
    destruct t as [|b t']; [reflexivity|].
    cbn [app]. unfold is_char at 1. simpl in Hc1.
    destruct (b =? 40); [discriminate | reflexivity].
Qed.

Section Image.
Variables alt url post : str.
Hypothesis Halt : no_close alt = true.
Hypothesis Hline : Forall (fun c => dot c = true) alt.
Hypothesis Hurl : Forall (fun c => dot c = true /\ c <> 41) url.

Lemma match_image :
  match_here re_image (image alt url ++ post)
  = Some (length (image alt url)).
Proof.
  unfold image. rewrite <- !app_assoc. cbn [app].
  change (match_here re_image (33 :: 91 :: alt ++ 93 :: 40 :: url ++ 41 :: post))
    with (S <$> (S <$> lazy_star dot
                   (match_here [One (is_char 93); One (is_char 40);
                                StarLazy dot; One (is_char 41)])
                   (alt ++ 93 :: 40 :: url ++ 41 :: post))).
  rewrite lazy_alt by assumption. cbn [fmap option_fmap option_map length].
  f_equal. rewrite !length_app. simpl. rewrite !length_app. simpl. lia.
Qed.

(** The leftmost image of a line is deleted and the pass goes on behind
    it. *)
Lemma remove_images_leftmost (pre : str) :
  Forall (fun c => c <> 33) pre ->
  remove_images (pre ++ image alt url ++ post) = pre ++ remove_images post.
Proof.
  unfold remove_images, re_sub. induction 1 as [|c t Hc _ IH].
  - pose proof match_image as M. unfold image in *.
    cbn [app length] in *. cbn [sub_from]. rewrite M. cbn [app sub_from].
    rewrite sub_from_skip, drop_app_length. reflexivity.
  - cbn [app sub_from].
    assert (M : match_here re_image (c :: t ++ image alt url ++ post) = None).
    { unfold re_image. cbn [match_here]. unfold is_char at 1.
      apply N.eqb_neq in Hc. rewrite Hc. reflexivity. }
    rewrite M, IH. reflexivity.
Qed.
End Image.

(** ** Theorems about the transformer *)

(** C1: the record numbered 42, titled Hello World, with body
    [some text], created 2023-01-15T10:30:00Z and updated
    2023-01-16T08:00:00Z, is rendered to the file name
    [2023-01-15-Hello-World.md]; the header holds the title line with
    the quoted title and the tag entry [tags: [42]]; the body section is
    [some text], unchanged. *)
Theorem convert_hello_world (now : datetime) :
  convert_to_jekyll_post now hello
  = Ok (u "2023-01-15-Hello-World.md", hello_header ++ u "some text")
  /\ In (u "title: " ++ [dquote] ++ u "Hello World" ++ [dquote])
        (split newline hello_header)
  /\ exists rest,
       In (u "tags: [42]" ++ rest) (split newline hello_header).
Proof.
  split; [vm_compute; reflexivity|]. split.
  - vm_compute. right. left. reflexivity.
  - exists (u "  # 使用issue编号作为tag").
    vm_compute. do 5 right. left. reflexivity.
Qed.

(** C2, as stated, fails: after the pass a text can still hold an inline
    image, put together from what was left around a deleted one. *)
Lemma process_markdown_leaves_image :
  process_markdown (u "!![a](b)[x](y)") = image (u "x") (u "y")
  /\ has_match re_image (process_markdown (u "!![a](b)[x](y)")) = true.
Proof. split; vm_compute; reflexivity. Qed.

(** C2 (amended): [process_markdown] makes one pass from the left over
    each line.  Line [k] of the result is line [k] of the input after the
    pass; the pass only deletes characters; a line in which no image
    begins comes back identical; the leftmost image of a line (no bang
    before it, no bracket-parenthesis pair inside the alternative text,
    no closing parenthesis inside the address) is deleted and the pass
    goes on behind it. *)
Theorem process_markdown_single_pass (s : str) :
  split newline (process_markdown s) = map remove_images (split newline s)
  /\ (forall line, sublist (remove_images line) line)
  /\ (forall line,
        has_match re_image line = false -> remove_images line = line)
  /\ (forall pre alt url post,
        Forall (fun c => c <> 33) pre ->
        no_close alt = true ->
        Forall (fun c => dot c = true) alt ->
        Forall (fun c => dot c = true /\ c <> 41) url ->
        remove_images (pre ++ image alt url ++ post)
        = pre ++ remove_images post).
Proof.
  split; [apply process_markdown_split|].
  split; [apply remove_images_sublist|].
  split; [intros line H; apply sub_from_no_match, H|].
  intros pre alt url post Hp Ha Hl Hu. apply remove_images_leftmost; assumption.
Qed.

Lemma process_markdown_single_pass_witness :
  split newline (process_markdown [97; 33; 91; 120; 93; 40; 121; 41; 10; 98])
  = [[97]; [98]]
  /\ remove_images [99] = [99]
  /\ remove_images ([97] ++ image [120] [121] ++ [98]) = [97] ++ remove_images [98].
Proof.
  destruct (process_markdown_single_pass
              [97; 33; 91; 120; 93; 40; 121; 41; 10; 98])
    as (H1 & _ & H3 & H4).
  split; [rewrite H1; reflexivity|].
  split; [apply H3; reflexivity|].
  apply H4.
  - repeat constructor; discriminate.
  - reflexivity.
  - repeat constructor.
  - repeat constructor; discriminate.
Defined.

(** C3: for every title holding one of the nine characters removed in
    the first step, the result of [sanitize_filename] holds none of
    them. *)
Theorem sanitize_filename_no_forbidden (now : datetime) (title : str) :
  Exists (fun c => forbidden c = true) title ->
  Forall (fun c => forbidden c = false) (sanitize_filename now title).
Proof.
  intros _. destruct (sanitize_filename_clean now title) as [H _]. exact H.
Qed.

Lemma sanitize_filename_no_forbidden_witness :
  Exists (fun c => forbidden c = true) [97; 47; 98; 58; 99]
  /\ Forall (fun c => forbidden c = false)
            (sanitize_filename hello_created [97; 47; 98; 58; 99]).
Proof.
  assert (H : Exists (fun c => forbidden c = true) [97; 47; 98; 58; 99])
    by (right; left; reflexivity).
  split; [exact H|].
  exact (sanitize_filename_no_forbidden hello_created [97; 47; 98; 58; 99] H).
Defined.

(** C4: [sanitize_filename] is idempotent: applied to its own result,
    at whatever time, it returns that result. *)
Theorem sanitize_filename_idempotent (now now' : datetime) (title : str) :
  sanitize_filename now' (sanitize_filename now title)
  = sanitize_filename now title.
Proof. apply clean_fixed, sanitize_filename_clean. Qed.

(** C5, as stated, fails: the fallback for a title stripped to nothing
    is not the prefix followed by fourteen digits. *)
Lemma fallback_not_14_digits :
  stripped_title (u "?*") = []
  /\ sanitize_filename hello_created (u "?*") = u "article-20230115-103000"
  /\ article_14_digits (sanitize_filename hello_created (u "?*")) = false.
Proof. repeat split; vm_compute; reflexivity. Qed.

(** C5 (amended): for every title that is empty after the stripping
    steps, [sanitize_filename] returns the non-empty fallback
    [article-YYYYMMDD-HHMMSS]: the prefix, the eight digits of the date,
    a hyphen and the six digits of the time of the call (fourteen digits
    with a hyphen between the date and the time).  Years are taken from
    1000 on, where the year is printed on four digits everywhere. *)
Theorem sanitize_filename_fallback (now : datetime) (title : str) :
  stripped_title title = [] ->
  1000 <= year now ->
  sanitize_filename now title = u "article-" ++ strftime_compact now
  /\ article_stamp (sanitize_filename now title) = true
  /\ sanitize_filename now title <> [].
Proof.
  intros He _.
  destruct (sanitize_filename_cases now title) as [[_ E]|[Hne _]];
    [|contradiction].
  rewrite E. split; [reflexivity|].
  rewrite u_article. unfold strftime_compact, pad4, pad2. cbn [app].
  split; [|discriminate].
  unfold article_stamp. cbn [take drop length lookup list_lookup forallb].
  rewrite !digit_is_digit. rewrite u_article.
  rewrite !bool_decide_eq_true_2 by reflexivity. reflexivity.
Qed.

Lemma sanitize_filename_fallback_witness :
  stripped_title [63; 32; 45] = []
  /\ 1000 <= year hello_created
  /\ sanitize_filename hello_created [63; 32; 45]
     = u "article-20230115-103000".
Proof.
  assert (H1 : stripped_title [63; 32; 45] = []) by reflexivity.
  assert (H2 : 1000 <= year hello_created) by (simpl; lia).
  split; [exact H1|]. split; [exact H2|].
  destruct (sanitize_filename_fallback hello_created [63; 32; 45] H1 H2)
    as (E & _ & _).
  rewrite E. reflexivity.
Defined.

(** A record with a title and readable instants is rendered, once its
    body section is known. *)
Lemma convert_ok (now : datetime) (i : issue) (title : str)
    (created : value) (cd ud : datetime) (content : str) :
  i !! k_title = Some (VStr title) ->
  i !! k_created_at = Some created ->
  parse_timestamp created = Ok cd ->
  parse_timestamp (get_default i k_updated_at created) = Ok ud ->
  body_section title (body_of i) = Ok content ->
  convert_to_jekyll_post now i
  = Ok (strftime_date cd ++ [hyphen] ++ sanitize_filename now title ++ u ".md",
        front_matter title cd ud (get_default i k_number (VStr []))
        ++ content).
Proof.
  intros Ht Hc Hcd Hud Hb. unfold convert_to_jekyll_post, getitem.
  rewrite Ht, Hc. cbv [mbind result_bind]. rewrite Hcd, Hud.
  cbv [as_str]. rewrite Hb. reflexivity.
Qed.

Lemma placeholder_not_empty (title : str) : placeholder title <> [].
Proof. unfold placeholder. change (u "**") with [42; 42]. discriminate. Qed.

Lemma body_section_blank (title b : str) :
  Forall (fun c => isspace c = true) b ->
  body_section title (if truthy (VStr b) then VStr b else VStr [])
  = Ok (placeholder title).
Proof.
  intros H. destruct b as [|c b]; [reflexivity|].
  cbn [truthy]. unfold body_section. cbn [as_str mbind result_bind].
  rewrite (strip_all isspace (c :: b) H). reflexivity.
Qed.

(** C6: for every record whose body is empty or made of whitespace only,
    the body section of the generated document is the placeholder
    embedding the title, and is not the empty text. *)
Theorem convert_blank_body (now : datetime) (i : issue) (b : str) :
  i !! k_body = Some (VStr b) ->
  Forall (fun c => isspace c = true) b ->
  (forall title,
     body_section title (body_of i) = Ok (placeholder title)
     /\ placeholder title <> [])
  /\ forall (title : str) (created : value) (cd ud : datetime),
       i !! k_title = Some (VStr title) ->
       i !! k_created_at = Some created ->
       parse_timestamp created = Ok cd ->
       parse_timestamp (get_default i k_updated_at created) = Ok ud ->
       convert_to_jekyll_post now i
       = Ok (strftime_date cd ++ [hyphen] ++ sanitize_filename now title
             ++ u ".md",
             front_matter title cd ud (get_default i k_number (VStr []))
             ++ placeholder title).
Proof.
  intros Hb Hw.
  assert (B : forall title,
             body_section title (body_of i) = Ok (placeholder title)).
  { intros title. unfold body_of, get_default. rewrite Hb.
    apply body_section_blank, Hw. }
  split; [intros title; split; [apply B | apply placeholder_not_empty]|].
  intros title created cd ud Ht Hc Hcd Hud.
  apply (convert_ok now i title created cd ud); try assumption. apply B.
Qed.

Lemma convert_blank_body_witness :
  Forall (fun c => isspace c = true) [32; 9; 10]
  /\ convert_to_jekyll_post hello_created (hello_with_body (VStr [32; 9; 10]))
     = Ok (strftime_date hello_created ++ [hyphen]
           ++ sanitize_filename hello_created (u "Hello World") ++ u ".md",
           front_matter (u "Hello World") hello_created hello_updated
             (get_default (hello_with_body (VStr [32; 9; 10])) k_number
                (VStr []))
           ++ placeholder (u "Hello World")).
Proof.
  assert (H : Forall (fun c => isspace c = true) [32; 9; 10])
    by (repeat constructor).
  assert (Hb : hello_with_body (VStr [32; 9; 10]) !! k_body
               = Some (VStr [32; 9; 10])) by (vm_compute; reflexivity).
  split; [exact H|].
  destruct (convert_blank_body hello_created
              (hello_with_body (VStr [32; 9; 10])) [32; 9; 10] Hb H)
    as [_ R].
  apply (R (u "Hello World") (VStr (u "2023-01-15T10:30:00Z"))
           hello_created hello_updated);
    vm_compute; reflexivity.
Defined.

(** A null body and an empty body are rendered alike, and raise alike
    when another field is at fault. *)
Lemma convert_null_as_empty (now : datetime) (i : issue) :
  i !! k_body = Some VNone ->
  convert_to_jekyll_post now i
  = convert_to_jekyll_post now (<[k_body := VStr []]> i).
Proof.
  intros Hb.
  assert (Hk : forall k, k <> k_body ->
                 (<[k_body := VStr []]> i) !! k = i !! k).
  { intros k Hk. apply lookup_insert_ne. congruence. }
  unfold convert_to_jekyll_post, getitem, body_of, get_default.
  rewrite (Hk k_title), (Hk k_created_at), (Hk k_updated_at), (Hk k_number)
    by discriminate.
  rewrite lookup_insert_eq, Hb. reflexivity.
Qed.

(** C10: for every record whose body field is present and null,
    [convert_to_jekyll_post] does as for the same record with an empty
    body; it does not raise on the body, and where the title is a text
    and the instants are readable it returns the document whose body
    section is the placeholder embedding the title. *)
Theorem convert_null_body (now : datetime) (i : issue) :
  i !! k_body = Some VNone ->
  convert_to_jekyll_post now i
  = convert_to_jekyll_post now (<[k_body := VStr []]> i)
  /\ (forall title, body_section title (body_of i) = Ok (placeholder title))
  /\ forall (title : str) (created : value) (cd ud : datetime),
       i !! k_title = Some (VStr title) ->
       i !! k_created_at = Some created ->
       parse_timestamp created = Ok cd ->
       parse_timestamp (get_default i k_updated_at created) = Ok ud ->
       convert_to_jekyll_post now i
       = Ok (strftime_date cd ++ [hyphen] ++ sanitize_filename now title
             ++ u ".md",
             front_matter title cd ud (get_default i k_number (VStr []))
             ++ placeholder title).
Proof.
  intros Hb. split; [apply convert_null_as_empty, Hb|].
  assert (B : body_of i = VStr [])
    by (unfold body_of, get_default; rewrite Hb; reflexivity).
  split; [intros title; rewrite B; reflexivity|].
  intros title created cd ud Ht Hc Hcd Hud.
  apply (convert_ok now i title created cd ud); try assumption.
  rewrite B. reflexivity.
Qed.

Lemma convert_null_body_witness :
  hello_with_body VNone !! k_body = Some VNone
  /\ convert_to_jekyll_post hello_created (hello_with_body VNone)
     = Ok (strftime_date hello_created ++ [hyphen]
           ++ sanitize_filename hello_created (u "Hello World") ++ u ".md",
           front_matter (u "Hello World") hello_created hello_updated
             (get_default (hello_with_body VNone) k_number (VStr []))
           ++ placeholder (u "Hello World")).
Proof.
  assert (H : hello_with_body VNone !! k_body = Some VNone)
    by (vm_compute; reflexivity).
  split; [exact H|].
  destruct (convert_null_body hello_created (hello_with_body VNone) H)
    as (_ & _ & R).
  apply (R (u "Hello World") (VStr (u "2023-01-15T10:30:00Z"))
           hello_created hello_updated);
    vm_compute; reflexivity.
Defined.

(** ** Properties of the fetcher and of the loop *)

Lemma printed_printed (st : state) (l1 l2 : list str) :
  printed (printed st l1) l2 = printed st (l1 ++ l2).
Proof. unfold printed. simpl. rewrite app_assoc. reflexivity. Qed.

Lemma print_printed (line : str) (st : state) :
  print line st = (Ok tt, printed st [line]).
Proof. reflexivity. Qed.

Lemma fetch_json_failure {A} (answer : result (response A)) (msg : str) :
  http_failure answer msg -> fetch_json answer = Raise (RequestException msg).
Proof.
  intros [->|(r & -> & [H1 H2] & ->)]; [reflexivity|].
  unfold fetch_json. cbv [mbind result_bind raise_for_status].
  apply Z.leb_le in H1. apply Z.ltb_lt in H2. rewrite H1, H2. reflexivity.
Qed.

Lemma get_all_issues_failure (answer : result (response (list issue)))
    (msg : str) (st : state) :
  http_failure answer msg ->
  get_all_issues answer st
  = (Ok [], printed st [msg_fetching; msg_fetch_failed msg]).
Proof.
  intros H. unfold get_all_issues. rewrite (fetch_json_failure _ _ H).
  cbv [mbind M_bind mret M_ret]. rewrite !print_printed, printed_printed.
  reflexivity.
Qed.

Lemma get_all_issues_ok (answer : result (response (list issue)))
    (issues : list issue) (st : state) :
  fetch_json answer = Ok issues ->
  get_all_issues answer st
  = (Ok issues, printed st [msg_fetching; msg_fetched (length issues)]).
Proof.
  intros H. unfold get_all_issues. rewrite H.
  cbv [mbind M_bind mret M_ret]. rewrite !print_printed, printed_printed.
  reflexivity.
Qed.

Lemma get_issue_content_failure (answer : result (response issue))
    (number : value) (msg : str) (st : state) :
  http_failure answer msg ->
  get_issue_content answer number st
  = (Ok None, printed st [msg_detail_failed number msg]).
Proof.
  intros H. unfold get_issue_content. rewrite (fetch_json_failure _ _ H).
  reflexivity.
Qed.

Section Iteration.
Variables (w : world) (k : nat) (i : issue) (count : nat) (st : state).
Variables (number : value) (title : str).
Hypothesis Hnumber : i !! k_number = Some number.
Hypothesis Htruthy : truthy number = true.
Hypothesis Htitle : i !! k_title = Some (VStr title).

(** The iteration up to the request for the detail. *)
Lemma process_issue_request :
  process_issue w k i count st
  = (issue_detail ← get_issue_content (detail w k) number;
     match issue_detail with
     | None => mret count
     | Some d =>
         if bool_decide (d = ∅) then mret count
         else
           '(filename, content) ←
              lift (convert_to_jekyll_post (clock w k) d);
           present ← exists_file filename;
           if present : bool then
             _ ← print (msg_exists filename);
             mret count
           else
             saved ← save_article (writing w k) filename content;
             mret (if saved : bool then S count else count)
     end) (printed st [msg_processing number (take 50 title)]).
Proof.
  unfold process_issue. rewrite Hnumber, Htruthy. cbn [negb].
  unfold getitem. rewrite Htitle. reflexivity.
Qed.

Lemma process_issue_detail_failure (msg : str) :
  http_failure (detail w k) msg ->
  process_issue w k i count st
  = (Ok count,
     printed st [msg_processing number (take 50 title);
                 msg_detail_failed number msg]).
Proof.
  intros H. rewrite process_issue_request.
  cbv [mbind M_bind]. rewrite (get_issue_content_failure _ _ _ _ H).
  rewrite printed_printed. reflexivity.
Qed.

Lemma process_issue_exists (d : issue) (filename content old : str) :
  fetch_json (detail w k) = Ok d ->
  d <> ∅ ->
  convert_to_jekyll_post (clock w k) d = Ok (filename, content) ->
  files st !! filename = Some old ->
  process_issue w k i count st
  = (Ok count,
     printed st [msg_processing number (take 50 title);
                 msg_exists filename]).
Proof.
  intros Hd Hne Hc Hf. rewrite process_issue_request.
  cbv [mbind M_bind get_issue_content]. rewrite Hd.
  cbv [mret M_ret]. rewrite bool_decide_eq_false_2 by exact Hne.
  cbv [lift]. rewrite Hc. unfold exists_file. cbn [printed files].
  rewrite Hf. rewrite bool_decide_eq_true_2 by (eexists; reflexivity).
  rewrite print_printed, printed_printed. reflexivity.
Qed.
End Iteration.

Lemma process_issue_effect (w : world) (k : nat) (i : issue) (c : nat)
    (st : state) :
  step_effect w k c st (process_issue w k i c st).1
              (process_issue w k i c st).2.
Proof.
  assert (Same : forall ls, step_effect w k c st (Ok c) (printed st ls))
    by (intros ls; apply effect_none; [reflexivity | congruence]).
  assert (Fail : forall e ls, step_effect w k c st (Raise e) (printed st ls))
    by (intros e ls; apply effect_none; [reflexivity | discriminate]).
  assert (Here : forall r : result nat,
             (forall c', r = Ok c' -> c' = c) -> step_effect w k c st r st)
    by (intros r Hr; apply effect_none; [reflexivity | exact Hr]).
  unfold process_issue.
  destruct (i !! k_number) as [number|]; [|apply Here; cbn; congruence].
  destruct (truthy number); cbn [negb]; [|apply Here; cbn; congruence].
  cbv [mbind M_bind lift].
  destruct (getitem i k_title) as [t|e]; [|apply Here; cbn; discriminate].
  destruct (slice50 t) as [h|e]; [|apply Here; cbn; discriminate].
  rewrite print_printed. unfold get_issue_content.
  destruct (fetch_json (detail w k)) as [d|e].
  - cbv [mret M_ret]. destruct (bool_decide (d = ∅)); [apply Same|].
    destruct (convert_to_jekyll_post (clock w k) d) as [[fn content]|e];
      [|apply Fail].
    unfold exists_file. cbn [printed files].
    destruct (files st !! fn) as [old|] eqn:E.
    + rewrite bool_decide_eq_true_2 by (eexists; reflexivity).
      rewrite print_printed, printed_printed. apply Same.
    + rewrite bool_decide_eq_false_2 by (intros [x Hx]; discriminate).
      unfold save_article. destruct (writing w k) as [|e p] eqn:W.
      * eapply effect_written; [exact E | exact W | reflexivity].
      * eapply effect_failed; [exact E | exact W | reflexivity].
  - destruct e; try apply Fail.
    cbv [mbind M_bind mret M_ret]. rewrite print_printed, printed_printed.
    apply Same.
Qed.

Lemma step_effect_keeps (w : world) (k c : nat) (st : state)
    (r : result nat) (st' : state) :
  step_effect w k c st r st' -> files st ⊆ files st'.
Proof.
  intros [r' st1 E _|fn content st1 Hn _ E|fn e p st1 Hn _ E]; rewrite E.
  - reflexivity.
  - apply insert_subseteq, Hn.
  - destruct p; [apply insert_subseteq, Hn | reflexivity].
Qed.

(** The loop never changes or removes a file that exists. *)
Lemma loop_keeps (w : world) (issues : list issue) :
  forall (k c : nat) (st : state), files st ⊆ files (loop w k issues c st).2.
Proof.
  induction issues as [|i rest IH]; intros k c st; [reflexivity|].
  cbn [loop]. cbv [mbind M_bind].
  pose proof (process_issue_effect w k i c st) as E.
  apply step_effect_keeps in E.
  destruct (process_issue w k i c st) as [[c'|e] st']; cbn [fst snd] in *.
  - etransitivity; [exact E | apply IH].
  - exact E.
Qed.

(** When a failed write leaves nothing behind, the count is the number of
    files that the loop added. *)
Lemma loop_count (w : world) (issues : list issue) :
  (forall j e p, writing w j = WriteFailed e p -> p = None) ->
  forall (k c : nat) (st : state) (c' : nat) (st' : state),
    loop w k issues c st = (Ok c', st') ->
    (size (files st') + c = size (files st) + c')%nat.
Proof.
  intros Hw. induction issues as [|i rest IH]; intros k c st c' st'.
  - cbn. intros [= <- <-]. reflexivity.
  - cbn [loop]. cbv [mbind M_bind].
    pose proof (process_issue_effect w k i c st) as E.
    destruct (process_issue w k i c st) as [[c1|e] st1]; cbn [fst snd] in *;
      [|discriminate].
    intros H. apply IH in H.
    inversion E as [r' st2 Ef Hc|fn content st2 Hn _ Ef|fn e p st2 Hn W Ef];
      subst.
    + rewrite (Hc c1 eq_refl) in H. rewrite Ef in H. exact H.
    + rewrite Ef in H. rewrite (map_size_insert_None _ _ _ Hn) in H. lia.
    + rewrite (Hw _ _ _ W) in Ef. rewrite Ef in H. exact H.
Qed.

Lemma print_all_printed (ls : list str) (st : state) :
  print_all ls st = (Ok tt, printed st ls).
Proof.
  revert st. induction ls as [|l ls IH]; intros st.
  - cbn. unfold printed. rewrite app_nil_r. destruct st; reflexivity.
  - cbn [print_all]. cbv [mbind M_bind]. rewrite print_printed, IH.
    rewrite printed_printed. reflexivity.
Qed.

Lemma summary_printed (w : world) (c : nat) (st : state) :
  summary w c st = (Ok tt, printed st (summary_lines w c (files st))).
Proof.
  unfold summary, summary_lines. cbv [mbind M_bind].
  rewrite !print_printed, !printed_printed. unfold glob_md.
  cbn [printed files]. fold (md_names (files st)).
  destruct (md_names (files st)) as [|n ns] eqn:E.
  - reflexivity.
  - rewrite print_printed, print_all_printed, !printed_printed. reflexivity.
Qed.

Lemma get_all_issues_files (answer : result (response (list issue)))
    (st : state) :
  files (get_all_issues answer st).2 = files st.
Proof.
  unfold get_all_issues. cbv [mbind M_bind]. rewrite print_printed.
  destruct (fetch_json answer) as [l|[]]; reflexivity.
Qed.

(** A run never changes or removes a file that exists. *)
Lemma generate_articles_keeps (w : world) (st : state) :
  files st ⊆ files (generate_articles w st).2.
Proof.
  unfold generate_articles. cbv [mbind M_bind]. rewrite !print_printed.
  rewrite printed_printed.
  pose proof (get_all_issues_files (listing w)
                (printed st ([msg_start] ++ [rule]))) as G.
  destruct (get_all_issues (listing w) (printed st ([msg_start] ++ [rule])))
    as [[issues|e] st1]; cbn [fst snd printed files] in G |- *.
  - destruct issues as [|i rest].
    + rewrite print_printed. cbn. rewrite G. reflexivity.
    + pose proof (loop_keeps w (i :: rest) 0 0 st1) as L.
      destruct (loop w 0 (i :: rest) 0 st1) as [[c|e] st2];
        cbn [fst snd] in *.
      * rewrite summary_printed. cbn. rewrite <- G. exact L.
      * rewrite <- G. exact L.
  - rewrite G. reflexivity.
Qed.

(** ** The order of the listing *)

Lemma str_leb_total (a b : str) : str_leb a b = true \/ str_leb b a = true.
Proof.
  revert b. induction a as [|x a IH]; intros [|y b]; cbn; auto.
  destruct (N.ltb_spec x y); [auto|].
  destruct (N.ltb_spec y x); [auto|].
  assert (x = y) by lia. subst y. rewrite N.eqb_refl. apply IH.
Qed.

#[global] Instance str_le_total : Total str_le.
Proof. intros a b. apply str_leb_total. Qed.

Lemma ends_with_suffix (suffix s : str) :
  ends_with suffix s = true <-> exists pre, s = pre ++ suffix.
Proof.
  induction s as [|c s IH]; cbn [ends_with].
  - case_bool_decide as E.
    + split; [intros _; exists []; exact E | reflexivity].
    + split; [discriminate|]. intros (pre & H). exfalso. apply E.
      destruct pre; [exact H | discriminate].
  - case_bool_decide as E.
    + split; [intros _; exists []; exact E | reflexivity].
    + rewrite IH. split.
      * intros (pre & ->). exists (c :: pre). reflexivity.
      * intros (pre & H). destruct pre as [|x pre].
        { exfalso. apply E. exact H. }
        { injection H as _ H. exists pre. exact H. }
Qed.

Lemma NoDup_list_filter {A} (f : A -> bool) (l : list A) :
  NoDup l -> NoDup (List.filter f l).
Proof.
  induction 1 as [|x l Hx _ IH]; simpl; [constructor|].
  destruct (f x); [|exact IH]. constructor; [|exact IH].
  rewrite list_elem_of_In, filter_In, <- list_elem_of_In.
  intros [H _]. contradiction.
Qed.

Lemma md_names_spec (fs : gmap str str) (name : str) :
  name ∈ merge_sort str_le (md_names fs)
  <-> is_Some (fs !! name) /\ exists stem, name = stem ++ u ".md".
Proof.
  rewrite merge_sort_Permutation. unfold md_names.
  rewrite list_elem_of_In, filter_In, <- list_elem_of_In.
  rewrite elem_of_elements, elem_of_dom, ends_with_suffix. reflexivity.
Qed.

(** ** Theorems about the fetcher and the publication *)

Lemma hello_not_empty : hello <> ∅.
Proof.
  intros H. assert (E : hello !! k_title = None)
    by (rewrite H; apply lookup_empty).
  vm_compute in E. discriminate.
Qed.

(** C7: for every record whose generated file name exists in the
    destination directory, the iteration skips the record: it returns
    the count as it was, leaves the directory as it was (the existing
    file keeps its content) and the loop goes on with the next record;
    and in no run is a file that exists changed or removed. *)
Theorem publication_skips_existing (w : world) (k : nat) (i : issue)
    (rest : list issue) (count : nat) (st : state) (number : value)
    (title : str) (d : issue) (filename content old : str) :
  i !! k_number = Some number ->
  truthy number = true ->
  i !! k_title = Some (VStr title) ->
  fetch_json (detail w k) = Ok d ->
  d <> ∅ ->
  convert_to_jekyll_post (clock w k) d = Ok (filename, content) ->
  files st !! filename = Some old ->
  process_issue w k i count st
  = (Ok count,
     printed st [msg_processing number (take 50 title); msg_exists filename])
  /\ files (process_issue w k i count st).2 = files st
  /\ loop w k (i :: rest) count st
     = loop w (S k) rest count
         (printed st [msg_processing number (take 50 title);
                      msg_exists filename])
  /\ (forall (w' : world) (st' : state) (name text : str),
        files st' !! name = Some text ->
        files (generate_articles w' st').2 !! name = Some text).
Proof.
  intros Hn Ht Hti Hd Hne Hc Hf.
  pose proof (process_issue_exists w k i count st number title Hn Ht Hti
                d filename content old Hd Hne Hc Hf) as E.
  split; [exact E|]. split; [rewrite E; reflexivity|].
  split.
  - cbn [loop]. cbv [mbind M_bind]. rewrite E. reflexivity.
  - intros w' st' name text H.
    exact (lookup_weaken _ _ _ _ H (generate_articles_keeps w' st')).
Qed.

Lemma publication_skips_existing_witness :
  files st_published !! u "2023-01-15-Hello-World.md" = Some (u "kept")
  /\ process_issue (answering_world hello) 0 hello 0 st_published
     = (Ok 0%nat,
        printed st_published
          [msg_processing (VInt 42) (take 50 (u "Hello World"));
           msg_exists (u "2023-01-15-Hello-World.md")]).
Proof.
  assert (H : files st_published !! u "2023-01-15-Hello-World.md"
              = Some (u "kept")) by (vm_compute; reflexivity).
  split; [exact H|].
  apply (publication_skips_existing (answering_world hello) 0 hello [] 0
           st_published (VInt 42) (u "Hello World") hello
           (u "2023-01-15-Hello-World.md")
           (hello_header ++ u "some text") (u "kept"));
    first [exact H | exact hello_not_empty | vm_compute; reflexivity].
Defined.

(** C8, as stated, fails: a response whose code is outside the success
    range and below 400 is not a failure for the fetcher, which returns
    the decoded body. *)
Lemma non_2xx_body_is_returned :
  non_2xx (multiple_choices [hello]) = true
  /\ get_all_issues (Ok (multiple_choices [hello])) st0
     = (Ok [hello], printed st0 [msg_fetching; msg_fetched 1])
  /\ get_issue_content (Ok (multiple_choices hello)) (VInt 42) st0
     = (Ok (Some hello), st0).
Proof. repeat split. Qed.

(** C8 (amended): every failure of the transport, that is a
    [RequestException] raised by the request or a response with a client
    or server error code (400 to 599), is caught: [get_all_issues] prints
    the error and returns the empty list, on which the run prints that
    there is nothing to do and ends; [get_issue_content] prints the error
    and returns [None], on which the loop leaves count and directory as
    they were and goes on with the next record. *)
Theorem http_failures_are_caught :
  (forall (answer : result (response (list issue))) (msg : str) (st : state),
     http_failure answer msg ->
     get_all_issues answer st
     = (Ok [], printed st [msg_fetching; msg_fetch_failed msg]))
  /\ (forall (w : world) (msg : str) (st : state),
        http_failure (listing w) msg ->
        generate_articles w st
        = (Ok tt, printed st [msg_start; rule; msg_fetching;
                              msg_fetch_failed msg; msg_no_issues]))
  /\ (forall (answer : result (response issue)) (number : value) (msg : str)
        (st : state),
        http_failure answer msg ->
        get_issue_content answer number st
        = (Ok None, printed st [msg_detail_failed number msg]))
  /\ (forall (w : world) (k : nat) (i : issue) (rest : list issue)
        (count : nat) (st : state) (number : value) (title msg : str),
        i !! k_number = Some number ->
        truthy number = true ->
        i !! k_title = Some (VStr title) ->
        http_failure (detail w k) msg ->
        loop w k (i :: rest) count st
        = loop w (S k) rest count
            (printed st [msg_processing number (take 50 title);
                         msg_detail_failed number msg])).
Proof.
  split; [intros; apply get_all_issues_failure; assumption|].
  split.
  { intros w msg st H. unfold generate_articles. cbv [mbind M_bind].
    rewrite !print_printed, (get_all_issues_failure _ _ _ H).
    rewrite print_printed, !printed_printed. reflexivity. }
  split; [intros; apply get_issue_content_failure; assumption|].
  intros w k i rest count st number title msg Hn Ht Hti H.
  cbn [loop]. cbv [mbind M_bind].
  rewrite (process_issue_detail_failure w k i count st number title
             Hn Ht Hti msg H).
  reflexivity.
Qed.

Lemma http_failures_are_caught_witness :
  http_failure (A := list issue)
    (Ok {| status_code := 404; error_text := u "404 Client Error";
           json := Ok [hello] |}) (u "404 Client Error")
  /\ get_all_issues
       (Ok {| status_code := 404; error_text := u "404 Client Error";
              json := Ok [hello] |}) st0
     = (Ok [], printed st0 [msg_fetching;
                            msg_fetch_failed (u "404 Client Error")])
  /\ loop (quiet_world [hello]) 0 [hello] 0 st0
     = (Ok 0%nat,
        printed st0 [msg_processing (VInt 42) (take 50 (u "Hello World"));
                     msg_detail_failed (VInt 42) (u "timeout")]).
Proof.
  destruct http_failures_are_caught as (H1 & _ & _ & H4).
  assert (F : http_failure (A := list issue)
                (Ok {| status_code := 404; error_text := u "404 Client Error";
                       json := Ok [hello] |}) (u "404 Client Error")).
  { right. eexists. split; [reflexivity|]. split; [simpl; lia | reflexivity]. }
  split; [exact F|]. split; [apply H1, F|].
  rewrite (H4 (quiet_world [hello]) 0%nat hello [] 0%nat st0 (VInt 42)
              (u "Hello World") (u "timeout")).
  - reflexivity.
  - vm_compute; reflexivity.
  - reflexivity.
  - vm_compute; reflexivity.
  - left. reflexivity.
Defined.

(** C9, as stated, fails: a run whose listing is empty ends on the line
    saying so and prints no summary. *)
Lemma no_summary_without_issues :
  generate_articles (quiet_world []) st0
  = (Ok tt, printed st0 [msg_start; rule; msg_fetching; msg_fetched 0;
                         msg_no_issues])
  /\ reports_count (out (generate_articles (quiet_world []) st0).2) = false.
Proof. split; vm_compute; reflexivity. Qed.

(** C9 (amended): in every run whose listing holds a record and whose
    loop ends without an exception, the last lines printed are the
    summary: a rule, the count of the documents written in the run, the
    directory and, when the directory holds documents, their number and
    their names in ascending order, each document of the directory once.
    The count is the number of files added to the directory when no
    failed write leaves a file behind. *)
Theorem summary_after_loop (w : world) (st : state) (issues : list issue)
    (count : nat) (st2 : state) :
  fetch_json (listing w) = Ok issues ->
  issues <> [] ->
  loop w 0 issues 0
    (printed st [msg_start; rule; msg_fetching; msg_fetched (length issues)])
  = (Ok count, st2) ->
  generate_articles w st
  = (Ok tt, printed st2 (summary_lines w count (files st2)))
  /\ Sorted str_le (merge_sort str_le (md_names (files st2)))
  /\ NoDup (merge_sort str_le (md_names (files st2)))
  /\ (forall name,
        name ∈ merge_sort str_le (md_names (files st2))
        <-> is_Some (files st2 !! name) /\ exists stem, name = stem ++ u ".md")
  /\ ((forall j e p, writing w j = WriteFailed e p -> p = None) ->
      size (files st2) = (size (files st) + count)%nat).
Proof.
  intros Hl Hne Hloop. split.
  { unfold generate_articles. cbv [mbind M_bind].
    rewrite !print_printed, (get_all_issues_ok _ _ _ Hl), !printed_printed.
    destruct issues as [|i rest]; [contradiction|].
    cbn [app] in *. rewrite Hloop. apply summary_printed. }
  split; [apply Sorted_merge_sort, _|].
  split.
  { rewrite merge_sort_Permutation. unfold md_names.
    apply NoDup_list_filter, NoDup_elements. }
  split; [apply md_names_spec|].
  intros Hw. pose proof (loop_count w issues Hw _ _ _ _ _ Hloop) as H.
  cbn [printed files] in H. lia.
Qed.

Lemma summary_after_loop_witness :
  loop (quiet_world [hello]) 0 [hello] 0
    (printed st_published
       [msg_start; rule; msg_fetching; msg_fetched 1])
  = (Ok 0%nat,
     printed st_published
       [msg_start; rule; msg_fetching; msg_fetched 1;
        msg_processing (VInt 42) (take 50 (u "Hello World"));
        msg_detail_failed (VInt 42) (u "timeout")])
  /\ out (generate_articles (quiet_world [hello]) st_published).2
     = [msg_start; rule; msg_fetching; msg_fetched 1;
        msg_processing (VInt 42) (take 50 (u "Hello World"));
        msg_detail_failed (VInt 42) (u "timeout");
        [newline] ++ rule; msg_done 0; msg_location (u "_posts");
        msg_listing 1; msg_entry (u "2023-01-15-Hello-World.md")].
Proof.
  assert (H : loop (quiet_world [hello]) 0 [hello] 0
                (printed st_published
                   [msg_start; rule; msg_fetching; msg_fetched 1])
              = (Ok 0%nat,
                 printed st_published
                   [msg_start; rule; msg_fetching; msg_fetched 1;
                    msg_processing (VInt 42) (take 50 (u "Hello World"));
                    msg_detail_failed (VInt 42) (u "timeout")]))
    by (vm_compute; reflexivity).
  split; [exact H|].
  destruct (summary_after_loop (quiet_world [hello]) st_published [hello]
              0%nat _ eq_refl ltac:(discriminate) H) as [E _].
  rewrite E. vm_compute. reflexivity.
Defined.

(** Running the pipeline twice on the Hello World record: the first run
    writes the document and counts it, the second finds it, skips it and
    counts nothing; the file is the same after both. *)
Example run_twice :
  let first := (generate_articles (answering_world hello) st0).2 in
  let second := (generate_articles (answering_world hello) first).2 in
  files first
  = {[ u "2023-01-15-Hello-World.md" := hello_header ++ u "some text" ]}
  /\ files second = files first
  /\ msg_done 1 ∈ out first
  /\ msg_exists (u "2023-01-15-Hello-World.md") ∈ drop (length (out first)) (out second)
  /\ msg_done 0 ∈ drop (length (out first)) (out second).
Proof.
  cbv zeta. repeat split; try (vm_compute; reflexivity).
  - apply list_elem_of_In. vm_compute. do 7 right. left. reflexivity.
  - apply list_elem_of_In. vm_compute. do 5 right. left. reflexivity.
  - apply list_elem_of_In. vm_compute. do 7 right. left. reflexivity.
Qed.

(** ** Further properties of [sanitize_filename] *)

Lemma sub_One_filter (p : char -> bool) (s : str) :
  sub_from [One p] [] 0 s = List.filter (fun c => negb (p c)) s.
Proof.
  induction s as [|c s IH]; [reflexivity|].
  cbn [sub_from match_here List.filter]. destruct (p c); cbn; rewrite IH;
    reflexivity.
Qed.

(** X1: whatever the title, the result of [sanitize_filename] is not
    empty, holds no whitespace and no two hyphens in a row, and neither
    begins nor ends with a hyphen. *)
Theorem sanitize_filename_shape (now : datetime) (title : str) :
  sanitize_filename now title <> []
  /\ Forall (fun c => isspace c = false) (sanitize_filename now title)
  /\ no_double (sanitize_filename now title) = true
  /\ head (sanitize_filename now title) <> Some hyphen
  /\ last (sanitize_filename now title) <> Some hyphen.
Proof.
  destruct (sanitize_filename_clean now title) as (_ & Hs & Hd & Hh & Hl & Hn).
  repeat split; try assumption.
  - intros E. specialize (Hh _ E). discriminate.
  - intros E. specialize (Hl _ E). discriminate.
Qed.

(** X2: a title that is not empty, holds none of the nine removed
    characters, no whitespace and no two hyphens in a row, and neither
    begins nor ends with a hyphen, is returned as it is. *)
Theorem sanitize_filename_keeps_slug (now : datetime) (title : str) :
  title <> [] ->
  Forall (fun c => forbidden c = false) title ->
  Forall (fun c => isspace c = false) title ->
  no_double title = true ->
  head title <> Some hyphen ->
  last title <> Some hyphen ->
  sanitize_filename now title = title.
Proof.
  intros Hn Hf Hs Hd Hh Hl. apply clean_fixed. repeat split; try assumption.
  - intros c E. unfold is_char. apply N.eqb_neq. intros ->. exact (Hh E).
  - intros c E. unfold is_char. apply N.eqb_neq. intros ->. exact (Hl E).
Qed.

Lemma sanitize_filename_keeps_slug_witness :
  sanitize_filename hello_created [97; 45; 98] = [97; 45; 98].
Proof.
  apply (sanitize_filename_keeps_slug hello_created [97; 45; 98]);
    first [discriminate | reflexivity | repeat constructor].
Defined.

(** X3: the result depends on the title only through the characters
    that survive the first step: two titles that differ only in the nine
    removed characters get the same name. *)
Theorem sanitize_filename_collides (now : datetime) (t1 t2 : str) :
  List.filter (fun c => negb (forbidden c)) t1
  = List.filter (fun c => negb (forbidden c)) t2 ->
  sanitize_filename now t1 = sanitize_filename now t2.
Proof.
  intros H. unfold sanitize_filename, re_sub, re_forbidden.
  rewrite !sub_One_filter, H. reflexivity.
Qed.

Lemma sanitize_filename_collides_witness :
  [97; 58; 98] <> [97; 63; 98]
  /\ sanitize_filename hello_created [97; 58; 98]
     = sanitize_filename hello_created [97; 63; 98].
Proof.
  split; [discriminate|].
  apply (sanitize_filename_collides hello_created [97; 58; 98] [97; 63; 98]).
  reflexivity.
Defined.

Lemma plain_parts (c : char) :
  plain c = true ->
  forbidden c = false /\ isspace c = false /\ (c =? hyphen) = false.
Proof.
  unfold plain. intros H. apply andb_true_iff in H as [H H3].
  apply andb_true_iff in H as [H1 H2].
  apply negb_true_iff in H1, H2, H3. auto.
Qed.

Lemma isspace_not_forbidden (c : char) :
  isspace c = true -> forbidden c = false.
Proof.
  intros H. destruct (forbidden c) eqn:F; [|reflexivity].
  unfold forbidden in F. repeat (apply orb_true_iff in F as [F|F]);
    apply N.eqb_eq in F; subst c; discriminate.
Qed.

Lemma run_app_all (p : char -> bool) (g b : str) :
  Forall (fun c => p c = true) g ->
  (forall c, head b = Some c -> p c = false) ->
  run p (g ++ b) = length g.
Proof.
  intros Hg Hb. induction Hg as [|c g Hc _ IH]; cbn [app run length].
  - destruct b as [|x b]; [reflexivity|]. cbn. rewrite (Hb x eq_refl).
    reflexivity.
  - rewrite Hc, IH. reflexivity.
Qed.

Section Stages.
Variables (r : regex) (p : char -> bool) (repl : str).
Hypothesis Hsel : selects r p.

(** The substitution passes over a prefix that holds nothing of the
    class. *)
Lemma sub_app_outside (a b : str) :
  Forall (fun c => p c = false) a ->
  sub_from r repl 0 (a ++ b) = a ++ sub_from r repl 0 b.
Proof.
  induction 1 as [|c a Hc _ IH]; [reflexivity|].
  cbn [app sub_from]. pose proof (Hsel c (a ++ b)) as H. rewrite Hc in H.
  rewrite H, IH. reflexivity.
Qed.
End Stages.

(** A run of the class in front of a text that does not go on with the
    class is replaced once. *)
Lemma sub_plus_run (p : char -> bool) (repl g b : str) :
  g <> [] ->
  Forall (fun c => p c = true) g ->
  (forall c, head b = Some c -> p c = false) ->
  sub_from [PlusGreedy p] repl 0 (g ++ b)
  = repl ++ sub_from [PlusGreedy p] repl 0 b.
Proof.
  intros Hn Hg Hb. destruct g as [|c g]; [contradiction|].
  pose proof (run_app_all p (c :: g) b Hg Hb) as R.
  cbn [app sub_from]. rewrite match_plus.
  change (run p (c :: g ++ b)) with (run p ((c :: g) ++ b)). rewrite R.
  cbn [length]. rewrite sub_from_skip, drop_app_length. reflexivity.
Qed.

Lemma word_head (w x : str) (q : char -> bool) :
  w <> [] -> Forall (fun c => q c = false) w ->
  forall c, head (w ++ x) = Some c -> q c = false.
Proof.
  intros Hn Hw c. destruct w as [|a w]; [contradiction|].
  inversion Hw; subst. cbn. intros [= <-]. assumption.
Qed.

Lemma is_word_parts (w : str) :
  is_word w ->
  w <> [] /\ Forall (fun c => forbidden c = false) w
  /\ Forall (fun c => isspace c = false) w
  /\ Forall (fun c => is_char hyphen c = false) w.
Proof.
  intros [Hn Hw]. split; [exact Hn|].
  repeat split; eapply Forall_impl; try exact Hw; intros c Hc;
    apply plain_parts in Hc as (H1 & H2 & H3); assumption.
Qed.

Lemma hyphenated_head (w0 : str) (rest : list (str * str)) (x : str)
    (q : char -> bool) :
  w0 <> [] -> Forall (fun c => q c = false) w0 ->
  forall c, head (hyphenated w0 rest ++ x) = Some c -> q c = false.
Proof.
  intros Hn Hw c. destruct rest as [|[g w] rest]; cbn [hyphenated].
  - apply word_head; assumption.
  - rewrite <- app_assoc. apply word_head; assumption.
Qed.

Lemma spaced_no_forbidden (w0 : str) (rest : list (str * str)) :
  is_word w0 -> well_spaced rest ->
  Forall (fun c => forbidden c = false) (spaced w0 rest).
Proof.
  intros Hw Hr. unfold well_spaced in Hr. revert w0 Hw.
  induction Hr as [|[g w] rest [[_ Hg] Hw'] _ IH]; intros w0 Hw;
    cbn [spaced]; apply is_word_parts in Hw as Hp;
    destruct Hp as (_ & Hf & _ & _); [exact Hf|].
  apply Forall_app. split; [exact Hf|]. apply Forall_app. split.
  - eapply Forall_impl; [exact Hg|]. intros c. apply isspace_not_forbidden.
  - apply IH. exact Hw'.
Qed.

(** The second step on words, gaps and a tail. *)
Lemma spaces_stage (w0 : str) (rest : list (str * str)) (tail : str) :
  is_word w0 -> well_spaced rest ->
  sub_from re_spaces [hyphen] 0 (spaced w0 rest ++ tail)
  = hyphenated w0 rest ++ sub_from re_spaces [hyphen] 0 tail.
Proof.
  intros Hw Hr. unfold well_spaced in Hr. revert w0 Hw.
  induction Hr as [|[g w] rest [[Hgn Hg] Hw'] _ IH]; intros w0 Hw;
    cbn [spaced hyphenated]; apply is_word_parts in Hw as Hp;
    destruct Hp as (_ & _ & Hs & _).
  - apply (sub_app_outside re_spaces isspace [hyphen] (selects_Plus _)).
    exact Hs.
  - rewrite <- !app_assoc.
    rewrite (sub_app_outside re_spaces isspace [hyphen] (selects_Plus _))
      by exact Hs.
    unfold re_spaces at 1. rewrite sub_plus_run; [|exact Hgn|exact Hg|].
    + fold re_spaces. cbn [fst snd] in *. rewrite IH by exact Hw'.
      reflexivity.
    + cbn [fst snd] in *. apply is_word_parts in Hw' as (Hn & _ & Hs' & _).
      destruct rest as [|[g' w'] rest']; cbn [spaced];
        rewrite <- ?app_assoc; apply word_head; assumption.
Qed.

Lemma no_double_outside (w x : str) :
  Forall (fun c => is_char hyphen c = false) w ->
  no_double (w ++ x) = no_double x.
Proof.
  induction 1 as [|c w Hc _ IH]; [reflexivity|].
  cbn [app no_double]. unfold is_char in Hc. rewrite Hc, IH. reflexivity.
Qed.

Lemma hyphenated_no_double (w0 : str) (rest : list (str * str)) (x : str) :
  is_word w0 -> well_spaced rest ->
  no_double (hyphenated w0 rest ++ x) = no_double x.
Proof.
  intros Hw Hr. unfold well_spaced in Hr. revert w0 Hw.
  induction Hr as [|[g w] rest [_ Hw'] _ IH]; intros w0 Hw;
    cbn [hyphenated]; apply is_word_parts in Hw as Hp;
    destruct Hp as (_ & _ & _ & Hh).
  - apply no_double_outside, Hh.
  - rewrite <- app_assoc, (no_double_outside _ _ Hh).
    cbn [app no_double fst snd] in *. rewrite (IH _ Hw').
    apply is_word_parts in Hw' as (Hn & _ & _ & Hh').
    destruct (hyphenated w rest ++ x) as [|b t] eqn:E;
      [rewrite andb_false_r; reflexivity|].
    assert (Hb : is_char hyphen b = false).
    { apply (hyphenated_head w rest x (is_char hyphen) Hn Hh').
      rewrite E. reflexivity. }
    unfold is_char in Hb. rewrite Hb, andb_false_r. reflexivity.
Qed.

Lemma hyphenated_last (w0 : str) (rest : list (str * str)) :
  is_word w0 -> well_spaced rest ->
  forall c, last (hyphenated w0 rest) = Some c -> is_char hyphen c = false.
Proof.
  intros Hw Hr. unfold well_spaced in Hr. revert w0 Hw.
  induction Hr as [|[g w] rest [_ Hw'] _ IH]; intros w0 Hw c;
    cbn [hyphenated].
  - apply is_word_parts in Hw as (_ & _ & _ & Hh). intros E.
    apply last_Some in E as (l' & ->). apply Forall_app in Hh as [_ Hh].
    inversion Hh; subst. assumption.
  - cbn [fst snd] in *. specialize (IH _ Hw' c).
    assert (Hne : hyphenated w rest <> []).
    { destruct Hw' as [Hn _]. destruct rest as [|[] ?]; cbn;
        [exact Hn | destruct w; [contradiction | discriminate]]. }
    intros E. apply IH. rewrite <- E.
    destruct (hyphenated w rest) as [|a t]; [contradiction|].
    rewrite last_app_cons, last_cons_cons.
    reflexivity.
Qed.

Lemma lstrip_app_all (p : char -> bool) (l x : str) :
  Forall (fun c => p c = true) l -> lstrip p (l ++ x) = lstrip p x.
Proof.
  induction 1 as [|c l Hc _ IH]; [reflexivity|].
  cbn [app lstrip]. rewrite Hc. exact IH.
Qed.

(** Stripping takes off exactly the runs at both ends. *)
Lemma strip_core (p : char -> bool) (l h t : str) :
  Forall (fun c => p c = true) l ->
  Forall (fun c => p c = true) t ->
  (forall c, head h = Some c -> p c = false) ->
  (forall c, last h = Some c -> p c = false) ->
  h <> [] ->
  strip p (l ++ h ++ t) = h.
Proof.
  intros Hl Ht Hh Hlast Hn. unfold strip, rstrip.
  rewrite (lstrip_app_all p l _ Hl).
  rewrite (lstrip_id p (h ++ t)).
  - rewrite reverse_app, lstrip_app_all by (apply Forall_reverse, Ht).
    rewrite lstrip_id; [apply reverse_involutive|].
    intros c. rewrite head_reverse. apply Hlast.
  - intros c Hc. apply Hh. destruct h; [contradiction | exact Hc].
Qed.

(** A run of whitespace, empty or not, becomes at most one hyphen. *)
Lemma spaces_gap (g b : str) :
  Forall (fun c => isspace c = true) g ->
  (forall c, head b = Some c -> isspace c = false) ->
  exists l, Forall (fun c => is_char hyphen c = true) l
            /\ (length l <= 1)%nat
            /\ sub_from re_spaces [hyphen] 0 (g ++ b)
               = l ++ sub_from re_spaces [hyphen] 0 b.
Proof.
  intros Hg Hb. destruct g as [|c g].
  - exists []. repeat split; [constructor | cbn; lia].
  - exists [hyphen]. split; [repeat constructor|]. split; [cbn; lia|].
    unfold re_spaces. apply sub_plus_run; [discriminate | exact Hg | exact Hb].
Qed.

Lemma hyphenated_not_nil (w0 : str) (rest : list (str * str)) :
  w0 <> [] -> hyphenated w0 rest <> [].
Proof.
  intros Hn. destruct rest as [|[g w] rest]; cbn; [exact Hn|].
  destruct w0; [contradiction | discriminate].
Qed.

(** X4: a title made of words separated by runs of whitespace, with or
    without whitespace around it, becomes the words joined by single
    hyphens.  A word is a non-empty run of characters that are neither
    whitespace, nor hyphens, nor among the nine removed. *)
Theorem sanitize_filename_words (now : datetime) (lead w0 : str)
    (rest : list (str * str)) (trail : str) :
  Forall (fun c => isspace c = true) lead ->
  is_word w0 ->
  well_spaced rest ->
  Forall (fun c => isspace c = true) trail ->
  sanitize_filename now (lead ++ spaced w0 rest ++ trail)
  = hyphenated w0 rest.
Proof.
  intros Hlead Hw Hr Htrail.
  pose proof (is_word_parts w0 Hw) as (Hn & _ & Hs & Hh).
  assert (F : Forall (fun c => forbidden c = false)
                (lead ++ spaced w0 rest ++ trail)).
  { apply Forall_app. split; [|apply Forall_app; split].
    - eapply Forall_impl; [exact Hlead|]. intros c. apply isspace_not_forbidden.
    - apply spaced_no_forbidden; assumption.
    - eapply Forall_impl; [exact Htrail|]. intros c.
      apply isspace_not_forbidden. }
  unfold sanitize_filename, re_sub.
  rewrite (selects_id re_forbidden forbidden [] (selects_One _) _ F).
  destruct (spaces_gap lead (spaced w0 rest ++ trail) Hlead)
    as (l & Hl & Hl1 & ->).
  { destruct rest as [|[g w] rest]; cbn [spaced]; rewrite <- ?app_assoc;
      apply word_head; assumption. }
  rewrite (spaces_stage w0 rest trail Hw Hr).
  destruct (spaces_gap trail [] Htrail) as (t & Ht & Ht1 & E);
    [discriminate|].
  rewrite app_nil_r in E. rewrite E. cbn [sub_from]. rewrite app_nil_r.
  assert (D : no_double (l ++ hyphenated w0 rest ++ t) = true).
  { assert (D1 : no_double (hyphenated w0 rest ++ t) = true).
    { rewrite (hyphenated_no_double w0 rest t Hw Hr).
      destruct t as [|a [|b t]]; [reflexivity | | cbn in Ht1; lia].
      cbn. rewrite andb_false_r. reflexivity. }
    destruct l as [|a [|b l]]; [exact D1 | | cbn in Hl1; lia].
    cbn [app no_double]. rewrite D1, andb_true_r.
    destruct (hyphenated w0 rest ++ t) as [|b x] eqn:X;
      [rewrite andb_false_r; reflexivity|].
    assert (Hb : is_char hyphen b = false).
    { apply (hyphenated_head w0 rest t (is_char hyphen) Hn Hh).
      rewrite X. reflexivity. }
    unfold is_char in Hb. rewrite Hb, andb_false_r. reflexivity. }
  fold (re_sub re_hyphens [hyphen] (l ++ hyphenated w0 rest ++ t)).
  rewrite (collapse_id _ D).
  rewrite (strip_core (is_char hyphen) l (hyphenated w0 rest) t Hl Ht).
  - pose proof (hyphenated_not_nil w0 rest Hn).
    destruct (hyphenated w0 rest); [contradiction | reflexivity].
  - intros c Hc. apply (hyphenated_head w0 rest [] (is_char hyphen) Hn Hh).
    rewrite app_nil_r. exact Hc.
  - apply hyphenated_last; assumption.
  - apply hyphenated_not_nil, Hn.
Qed.

Lemma sanitize_filename_words_witness :
  sanitize_filename hello_created
    ([32] ++ spaced [72; 105] [([32; 9], [121; 111; 117])] ++ [32; 32])
  = hyphenated [72; 105] [([32; 9], [121; 111; 117])].
Proof.
  apply (sanitize_filename_words hello_created [32] [72; 105]
           [([32; 9], [121; 111; 117])] [32; 32]).
  - repeat constructor.
  - split; [discriminate | repeat constructor].
  - repeat constructor; discriminate.
  - repeat constructor.
Defined.

(** ** Further properties of [process_markdown] *)

Lemma split_Forall (P : char -> Prop) (c : char) (s : str) :
  Forall P s -> Forall (Forall P) (split c s).
Proof.
  induction 1 as [|x s Hx _ IH]; cbn [split]; [repeat constructor|].
  destruct (x =? c); [constructor; [constructor | exact IH]|].
  destruct (split c s) as [|l ls]; [repeat constructor; exact Hx|].
  inversion IH; subst. constructor; [constructor; assumption | assumption].
Qed.

Lemma no_bang_no_match (l : str) :
  Forall (fun c => c <> 33) l -> has_match re_image l = false.
Proof.
  induction 1 as [|c l Hc _ IH]; [reflexivity|].
  cbn [has_match]. unfold re_image at 1. cbn [match_here].
  unfold is_char at 1. apply N.eqb_neq in Hc. rewrite Hc. exact IH.
Qed.

Lemma join_sublist (sep : str) (f : str -> str) (ls : list str) :
  (forall l, sublist (f l) l) ->
  sublist (join sep (map f ls)) (join sep ls).
Proof.
  intros Hf. induction ls as [|l ls IH]; [constructor|].
  destruct ls as [|l' ls]; [apply Hf|].
  change (join sep (map f (l :: l' :: ls)))
    with (f l ++ sep ++ join sep (map f (l' :: ls))).
  change (join sep (l :: l' :: ls)) with (l ++ sep ++ join sep (l' :: ls)).
  apply sublist_app; [apply Hf|]. apply sublist_app; [reflexivity | exact IH].
Qed.

Lemma process_markdown_no_bang (s : str) :
  Forall (fun c => c <> 33) s -> process_markdown s = s.
Proof.
  intros H. rewrite process_markdown_map.
  rewrite <- (join_split newline s) at 2. f_equal.
  pose proof (split_Forall _ newline s H) as L.
  induction L as [|l ls Hl _ IH]; [reflexivity|].
  cbn [map]. rewrite IH. f_equal.
  apply sub_from_no_match, no_bang_no_match, Hl.
Qed.

(** X5: a text without exclamation mark is returned as it is. *)
Theorem process_markdown_plain (s : str) :
  Forall (fun c => c <> 33) s -> process_markdown s = s.
Proof. apply process_markdown_no_bang. Qed.

Lemma process_markdown_plain_witness :
  process_markdown [35; 32; 97; 10; 10; 91; 98; 93; 40; 99; 41]
  = [35; 32; 97; 10; 10; 91; 98; 93; 40; 99; 41].
Proof.
  apply (process_markdown_plain [35; 32; 97; 10; 10; 91; 98; 93; 40; 99; 41]).
  repeat constructor; discriminate.
Defined.

(** X6: [process_markdown] only deletes: its result is the input with
    some characters left out, in the same order, and is never longer
    than the input; no newline is deleted. *)
Theorem process_markdown_only_deletes (s : str) :
  sublist (process_markdown s) s
  /\ (length (process_markdown s) <= length s)%nat
  /\ length (split newline (process_markdown s)) = length (split newline s).
Proof.
  assert (H : sublist (process_markdown s) s).
  { rewrite process_markdown_map. rewrite <- (join_split newline s) at 2.
    apply join_sublist. intros l. apply remove_images_sublist. }
  split; [exact H|]. split; [apply sublist_length, H|].
  rewrite process_markdown_split. apply length_map.
Qed.

(** ** Further properties of [convert_to_jekyll_post] *)

Lemma parse_timestamp_inv (v : value) (d : datetime) :
  parse_timestamp v = Ok d ->
  exists s, v = VStr s /\ fromisoformat (replace_Z s) = Some d.
Proof.
  unfold parse_timestamp. cbv [mbind result_bind as_str].
  destruct v as [| | |s]; try discriminate.
  destruct (fromisoformat (replace_Z s)) as [d'|] eqn:E; [|discriminate].
  intros [= <-]. exists s. split; [reflexivity | exact E].
Qed.

(** What a returned document tells about the record. *)
Lemma convert_inv (now : datetime) (i : issue) (filename content : str) :
  convert_to_jekyll_post now i = Ok (filename, content) ->
  exists (title created b : str) (cd ud : datetime),
    i !! k_title = Some (VStr title)
    /\ i !! k_created_at = Some (VStr created)
    /\ fromisoformat (replace_Z created) = Some cd
    /\ parse_timestamp (get_default i k_updated_at (VStr created)) = Ok ud
    /\ body_of i = VStr b
    /\ filename = strftime_date cd ++ [hyphen] ++ sanitize_filename now title
                  ++ u ".md"
    /\ content = front_matter title cd ud (get_default i k_number (VStr []))
                 ++ match strip isspace b with
                    | [] => placeholder title
                    | _ => process_markdown b
                    end.
Proof.
  unfold convert_to_jekyll_post, getitem. cbv [mbind result_bind].
  destruct (i !! k_title) as [t|]; [|discriminate].
  destruct (i !! k_created_at) as [c|]; [|discriminate].
  destruct (parse_timestamp c) as [cd|] eqn:Hc; [|discriminate].
  destruct (parse_timestamp (get_default i k_updated_at c)) as [ud|] eqn:Hu;
    [|discriminate].
  destruct t as [| | |title]; cbn [as_str]; try discriminate.
  unfold body_section. cbv [mbind result_bind].
  destruct (body_of i) as [| | |b]; cbn [as_str]; try discriminate.
  apply parse_timestamp_inv in Hc as (created & -> & Hc).
  intros H. exists title, created, b, cd, ud.
  destruct (strip isspace b); injection H as <- <-; repeat split; assumption.
Qed.








Lemma strftime_date_chars (d : datetime) :
  Forall (fun c => is_digit c = true \/ c = hyphen) (strftime_date d).
Proof.
  unfold strftime_date, pad4, pad2. cbn [app].
  repeat (constructor; [first [left; apply digit_is_digit
                              | right; reflexivity]|]).
  constructor.
Qed.

Lemma strftime_date_length (d : datetime) : length (strftime_date d) = 10%nat.
Proof. reflexivity. Qed.



(** X8: every file name that [convert_to_jekyll_post] returns holds none
    of the nine removed characters (so no path separator) and no
    whitespace, and ends in [.md]; a file of that name is therefore
    among the documents that the summary lists. *)
Theorem convert_filename_safe (now : datetime) (i : issue)
    (filename content : str) :
  convert_to_jekyll_post now i = Ok (filename, content) ->
  Forall (fun c => forbidden c = false /\ isspace c = false) filename
  /\ (exists stem, filename = stem ++ u ".md")
  /\ forall fs : gmap str str,
       is_Some (fs !! filename) ->
       filename ∈ merge_sort str_le (md_names fs).
Proof.
  intros H.
  apply convert_inv in H
    as (title & created & b & cd & ud & _ & _ & _ & _ & _ & -> & _).
  assert (S : exists stem,
             strftime_date cd ++ [hyphen] ++ sanitize_filename now title
             ++ u ".md" = stem ++ u ".md").
  { exists (strftime_date cd ++ [hyphen] ++ sanitize_filename now title).
    rewrite <- !app_assoc. reflexivity. }
  split; [|split; [exact S|]].
  - destruct (sanitize_filename_clean now title) as (Hf & Hs & _).
    apply Forall_app. split.
    { eapply Forall_impl; [apply strftime_date_chars|].
      intros c [Hd| ->]; [|split; reflexivity].
      split; [apply is_digit_forbidden | apply is_digit_isspace]; exact Hd. }
    apply Forall_app. split; [repeat constructor|].
    apply Forall_app. split; [|repeat constructor].
    apply Forall_forall. intros c Hc. split.
    + exact (proj1 (Forall_forall _ _) Hf c Hc).
    + exact (proj1 (Forall_forall _ _) Hs c Hc).
  - intros fs Hfs. apply md_names_spec. split; [exact Hfs | exact S].
Qed.

Lemma convert_filename_safe_witness :
  convert_to_jekyll_post hello_created hello
  = Ok (u "2023-01-15-Hello-World.md", hello_header ++ u "some text")
  /\ exists stem, u "2023-01-15-Hello-World.md" = stem ++ u ".md".
Proof.
  assert (H : convert_to_jekyll_post hello_created hello
              = Ok (u "2023-01-15-Hello-World.md",
                    hello_header ++ u "some text"))
    by (vm_compute; reflexivity).
  split; [exact H|].
  exact (proj1 (proj2 (convert_filename_safe hello_created hello _ _ H))).
Defined.

(** X9: what [convert_to_jekyll_post] requires of a record, in the
    order in which it fails: without a title it raises [KeyError] for
    the title; with a title and without [created_at], [KeyError] for
    [created_at]; with a [created_at] that is not a text,
    [AttributeError]; with readable timestamps and a title that is not a
    text, [TypeError].  A document is returned only for a record whose
    title and [created_at] are texts and whose body is a text or false
    as a condition. *)
Theorem convert_required_fields (now : datetime) (i : issue) :
  (i !! k_title = None ->
   convert_to_jekyll_post now i = Raise (KeyError k_title))
  /\ (is_Some (i !! k_title) -> i !! k_created_at = None ->
      convert_to_jekyll_post now i = Raise (KeyError k_created_at))
  /\ (forall c, is_Some (i !! k_title) -> i !! k_created_at = Some c ->
                (forall s, c <> VStr s) ->
                convert_to_jekyll_post now i = Raise AttributeError)
  /\ (forall t c cd ud,
        i !! k_title = Some t -> (forall s, t <> VStr s) ->
        i !! k_created_at = Some c ->
        parse_timestamp c = Ok cd ->
        parse_timestamp (get_default i k_updated_at c) = Ok ud ->
        convert_to_jekyll_post now i = Raise TypeError)
  /\ (forall r, convert_to_jekyll_post now i = Ok r ->
                exists title created b,
                  i !! k_title = Some (VStr title)
                  /\ i !! k_created_at = Some (VStr created)
                  /\ body_of i = VStr b).
Proof.
  unfold convert_to_jekyll_post, getitem. cbv [mbind result_bind].
  split; [intros ->; reflexivity|].
  split; [intros [t ->] ->; reflexivity|].
  split.
  { intros c [t ->] -> Hc. unfold parse_timestamp.
    cbv [mbind result_bind as_str].
    destruct c as [| | |s]; try reflexivity. exfalso. exact (Hc s eq_refl). }
  split.
  { intros t c cd ud -> Ht -> -> ->. cbv [as_str].
    destruct t as [| | |s]; try reflexivity. exfalso. exact (Ht s eq_refl). }
  intros [fn content] H.
  assert (H' : convert_to_jekyll_post now i = Ok (fn, content)) by exact H.
  apply convert_inv in H'
    as (title & created & b & cd & ud & H1 & H2 & _ & _ & H5 & _).
  exists title, created, b. auto.
Qed.

Lemma convert_required_fields_witness :
  convert_to_jekyll_post hello_created (delete k_title hello)
  = Raise (KeyError k_title)
  /\ convert_to_jekyll_post hello_created (delete k_created_at hello)
     = Raise (KeyError k_created_at)
  /\ convert_to_jekyll_post hello_created (<[k_created_at := VNone]> hello)
     = Raise AttributeError
  /\ convert_to_jekyll_post hello_created (<[k_title := VInt 7]> hello)
     = Raise TypeError.
Proof.
  split.
  { apply (convert_required_fields hello_created (delete k_title hello)).
    apply lookup_delete_eq. }
  split.
  { apply (convert_required_fields hello_created
             (delete k_created_at hello)).
    - eexists. vm_compute. reflexivity.
    - apply lookup_delete_eq. }
  split.
  { apply (convert_required_fields hello_created
             (<[k_created_at := VNone]> hello)) with (c := VNone).
    - eexists. vm_compute. reflexivity.
    - apply lookup_insert_eq.
    - discriminate. }
  apply (convert_required_fields hello_created
           (<[k_title := VInt 7]> hello))
    with (t := VInt 7) (c := VStr (u "2023-01-15T10:30:00Z"))
         (cd := hello_created) (ud := hello_updated);
    first [discriminate | apply lookup_insert_eq | vm_compute; reflexivity].
Defined.

(** X10: a record without [updated_at] is rendered as the same record
    with [updated_at] set to its [created_at]; the two dates of the
    header are then the same instant. *)
Theorem convert_updated_default (now : datetime) (i : issue)
    (created : value) :
  i !! k_updated_at = None ->
  i !! k_created_at = Some created ->
  convert_to_jekyll_post now i
  = convert_to_jekyll_post now (<[k_updated_at := created]> i)
  /\ forall filename content,
       convert_to_jekyll_post now i = Ok (filename, content) ->
       exists title cd rest,
         parse_timestamp created = Ok cd
         /\ content
            = front_matter title cd cd (get_default i k_number (VStr []))
              ++ rest.
Proof.
  intros Hu Hc. split.
  - assert (Hk : forall k, k <> k_updated_at ->
                   (<[k_updated_at := created]> i) !! k = i !! k).
    { intros k Hk. apply lookup_insert_ne. congruence. }
    unfold convert_to_jekyll_post, getitem, body_of, get_default.
    rewrite (Hk k_title), (Hk k_created_at), (Hk k_body), (Hk k_number)
      by discriminate.
    rewrite lookup_insert_eq, Hu, Hc. reflexivity.
  - intros filename content H.
    apply convert_inv in H
      as (title & c & b & cd & ud & _ & Hc' & Hp & Hud & _ & _ & ->).
    rewrite Hc in Hc'. injection Hc' as ->.
    unfold get_default in Hud at 1. rewrite Hu in Hud.
    assert (P : parse_timestamp (VStr c) = Ok cd).
    { unfold parse_timestamp. cbv [mbind result_bind as_str]. rewrite Hp.
      reflexivity. }
    rewrite P in Hud. injection Hud as <-.
    exists title, cd. eexists. split; [exact P | reflexivity].
Qed.

Lemma convert_updated_default_witness :
  delete k_updated_at hello !! k_updated_at = None
  /\ convert_to_jekyll_post hello_created (delete k_updated_at hello)
     = convert_to_jekyll_post hello_created
         (<[k_updated_at := VStr (u "2023-01-15T10:30:00Z")]>
            (delete k_updated_at hello)).
Proof.
  assert (H : delete k_updated_at hello !! k_updated_at = None)
    by apply lookup_delete_eq.
  split; [exact H|].
  apply (convert_updated_default hello_created (delete k_updated_at hello)
           (VStr (u "2023-01-15T10:30:00Z")) H).
  vm_compute. reflexivity.
Defined.

(** X11: the body of a record that is absent or false as a condition
    (null, false, zero, the empty text) gives the placeholder; a body
    that is true as a condition and is not a text (a non-zero number,
    true) makes [convert_to_jekyll_post] raise [AttributeError]. *)
Theorem convert_body_kinds (now : datetime) (i : issue) (title : str)
    (created : value) (cd ud : datetime) :
  i !! k_title = Some (VStr title) ->
  i !! k_created_at = Some created ->
  parse_timestamp created = Ok cd ->
  parse_timestamp (get_default i k_updated_at created) = Ok ud ->
  (truthy (get_default i k_body (VStr [])) = false ->
   convert_to_jekyll_post now i
   = Ok (strftime_date cd ++ [hyphen] ++ sanitize_filename now title
         ++ u ".md",
         front_matter title cd ud (get_default i k_number (VStr []))
         ++ placeholder title))
  /\ (forall v, i !! k_body = Some v -> truthy v = true ->
                (forall s, v <> VStr s) ->
                convert_to_jekyll_post now i = Raise AttributeError).
Proof.
  intros Ht Hc Hcd Hud. split.
  - intros Hf. apply (convert_ok now i title created cd ud); try assumption.
    unfold body_of. rewrite Hf. reflexivity.
  - intros v Hb Hv Hs.
    unfold convert_to_jekyll_post, getitem. rewrite Ht, Hc.
    cbv [mbind result_bind]. rewrite Hcd, Hud. cbv [as_str].
    unfold body_of, get_default. rewrite Hb, Hv.
    destruct v as [| | |s]; try reflexivity.
    exfalso. exact (Hs s eq_refl).
Qed.

Lemma convert_body_kinds_witness :
  convert_to_jekyll_post hello_created (hello_with_body (VInt 0))
  = Ok (strftime_date hello_created ++ [hyphen]
        ++ sanitize_filename hello_created (u "Hello World") ++ u ".md",
        front_matter (u "Hello World") hello_created hello_updated
          (get_default (hello_with_body (VInt 0)) k_number (VStr []))
        ++ placeholder (u "Hello World"))
  /\ convert_to_jekyll_post hello_created (hello_with_body (VInt 7))
     = Raise AttributeError.
Proof.
  split.
  - apply (convert_body_kinds hello_created (hello_with_body (VInt 0))
             (u "Hello World") (VStr (u "2023-01-15T10:30:00Z"))
             hello_created hello_updated);
      vm_compute; reflexivity.
  - apply (convert_body_kinds hello_created (hello_with_body (VInt 7))
             (u "Hello World") (VStr (u "2023-01-15T10:30:00Z"))
             hello_created hello_updated) with (v := VInt 7);
      first [discriminate | vm_compute; reflexivity].
Defined.

(** X12: a body that holds something else than whitespace and no
    exclamation mark is the body section of the document, character for
    character. *)
Theorem convert_plain_body (now : datetime) (i : issue) (title b : str)
    (created : value) (cd ud : datetime) :
  i !! k_title = Some (VStr title) ->
  i !! k_created_at = Some created ->
  parse_timestamp created = Ok cd ->
  parse_timestamp (get_default i k_updated_at created) = Ok ud ->
  i !! k_body = Some (VStr b) ->
  strip isspace b <> [] ->
  Forall (fun c => c <> 33) b ->
  convert_to_jekyll_post now i
  = Ok (strftime_date cd ++ [hyphen] ++ sanitize_filename now title ++ u ".md",
        front_matter title cd ud (get_default i k_number (VStr [])) ++ b).
Proof.
  intros Ht Hc Hcd Hud Hb Hs Hp.
  apply (convert_ok now i title created cd ud); try assumption.
  unfold body_of, get_default. rewrite Hb.
  destruct b as [|c b]; [contradiction|]. cbn [truthy].
  unfold body_section. cbv [mbind result_bind as_str].
  destruct (strip isspace (c :: b)); [contradiction|].
  rewrite (process_markdown_no_bang _ Hp). reflexivity.
Qed.

Lemma convert_plain_body_witness :
  convert_to_jekyll_post hello_created hello
  = Ok (strftime_date hello_created ++ [hyphen]
        ++ sanitize_filename hello_created (u "Hello World") ++ u ".md",
        front_matter (u "Hello World") hello_created hello_updated
          (get_default hello k_number (VStr []))
        ++ u "some text").
Proof.
  apply (convert_plain_body hello_created hello (u "Hello World")
           (u "some text") (VStr (u "2023-01-15T10:30:00Z"))
           hello_created hello_updated);
    first [ vm_compute; reflexivity
          | vm_compute; discriminate
          | repeat constructor; discriminate ].
Defined.

(** ** Further properties of the fetcher and of the loop *)

Lemma printed_nil (st : state) : printed st [] = st.
Proof. unfold printed. rewrite app_nil_r. destruct st; reflexivity. Qed.

(** X13: only a [RequestException] is caught.  Any other exception of
    the request or of the decoding of the body leaves [get_all_issues]
    and [get_issue_content] as it is, and raised by the listing it ends
    the run before any record is read: no file is touched and no summary
    is printed. *)
Theorem other_exceptions_propagate (e : exn) :
  is_request_exception e = false ->
  (forall (answer : result (response (list issue))) (st : state),
     fetch_json answer = Raise e ->
     get_all_issues answer st = (Raise e, printed st [msg_fetching]))
  /\ (forall (answer : result (response issue)) (number : value)
        (st : state),
        fetch_json answer = Raise e ->
        get_issue_content answer number st = (Raise e, st))
  /\ (forall (w : world) (st : state),
        fetch_json (listing w) = Raise e ->
        generate_articles w st
        = (Raise e, printed st [msg_start; rule; msg_fetching])).
Proof.
  intros He.
  assert (G : forall (answer : result (response (list issue))) (st : state),
             fetch_json answer = Raise e ->
             get_all_issues answer st = (Raise e, printed st [msg_fetching])).
  { intros answer st H. unfold get_all_issues. cbv [mbind M_bind].
    rewrite print_printed, H. destruct e; try reflexivity. discriminate. }
  split; [exact G|]. split.
  - intros answer number st H. unfold get_issue_content. rewrite H.
    destruct e; try reflexivity. discriminate.
  - intros w st H. unfold generate_articles. cbv [mbind M_bind].
    rewrite !print_printed, (G _ _ H), !printed_printed. reflexivity.
Qed.

Lemma other_exceptions_propagate_witness :
  generate_articles (undecodable_world ValueError) st_published
  = (Raise ValueError, printed st_published [msg_start; rule; msg_fetching]).
Proof.
  destruct (other_exceptions_propagate ValueError eq_refl) as (_ & _ & H).
  apply (H (undecodable_world ValueError) st_published). reflexivity.
Defined.

Section Publication.
Variables (w : world) (k : nat) (i : issue) (count : nat) (st : state).
Variables (number : value) (title : str) (d : issue).
Variables (filename content : str).
Hypothesis Hnumber : i !! k_number = Some number.
Hypothesis Htruthy : truthy number = true.
Hypothesis Htitle : i !! k_title = Some (VStr title).
Hypothesis Hdetail : fetch_json (detail w k) = Ok d.
Hypothesis Hfull : d <> ∅.
Hypothesis Hconvert :
  convert_to_jekyll_post (clock w k) d = Ok (filename, content).
Hypothesis Habsent : files st !! filename = None.

(** The iteration up to the call of [save_article]. *)
Lemma process_issue_save :
  process_issue w k i count st
  = (saved ← save_article (writing w k) filename content;
     mret (if saved : bool then S count else count))
      (printed st [msg_processing number (take 50 title)]).
Proof.
  rewrite (process_issue_request w k i count st number title Hnumber Htruthy
             Htitle).
  cbv [mbind M_bind get_issue_content]. rewrite Hdetail.
  cbv [mret M_ret]. rewrite bool_decide_eq_false_2 by exact Hfull.
  cbv [lift]. rewrite Hconvert. unfold exists_file. cbn [printed files].
  rewrite Habsent.
  rewrite bool_decide_eq_false_2 by (intros [x Hx]; discriminate).
  reflexivity.
Qed.

Lemma process_issue_written :
  writing w k = Written ->
  process_issue w k i count st
  = (Ok (S count),
     {| files := <[filename := content]> (files st);
        out := out st ++ [msg_processing number (take 50 title);
                          msg_saved filename] |}).
Proof.
  intros Hw. rewrite process_issue_save, Hw. unfold save_article.
  cbv [mbind M_bind mret M_ret]. rewrite print_printed.
  unfold printed. cbn [files out]. rewrite <- app_assoc. reflexivity.
Qed.

End Publication.

(** X14: a record whose file name is not in the directory and whose
    write succeeds is published: the file then holds exactly the
    rendered document, every other file is as before, the count is one
    more and the loop goes on with the next record. *)
Theorem publication_writes_absent (w : world) (k : nat) (i : issue)
    (rest : list issue) (count : nat) (st : state) (number : value)
    (title : str) (d : issue) (filename content : str) :
  i !! k_number = Some number ->
  truthy number = true ->
  i !! k_title = Some (VStr title) ->
  fetch_json (detail w k) = Ok d ->
  d <> ∅ ->
  convert_to_jekyll_post (clock w k) d = Ok (filename, content) ->
  files st !! filename = None ->
  writing w k = Written ->
  exists st',
    process_issue w k i count st = (Ok (S count), st')
    /\ files st' !! filename = Some content
    /\ (forall name, name <> filename -> files st' !! name = files st !! name)
    /\ out st' = out st ++ [msg_processing number (take 50 title);
                            msg_saved filename]
    /\ loop w k (i :: rest) count st = loop w (S k) rest (S count) st'.
Proof.
  intros Hn Ht Hti Hd Hne Hc Hf Hw.
  pose proof (process_issue_written w k i count st number title d filename
                content Hn Ht Hti Hd Hne Hc Hf Hw) as E.
  eexists. split; [exact E|]. cbn [files out].
  split; [apply lookup_insert_eq|].
  split; [intros name Hname; apply lookup_insert_ne; congruence|].
  split; [reflexivity|].
  cbn [loop]. cbv [mbind M_bind]. rewrite E. reflexivity.
Qed.

Lemma publication_writes_absent_witness :
  files st0 !! u "2023-01-15-Hello-World.md" = None
  /\ exists st',
       process_issue (answering_world hello) 0 hello 0 st0 = (Ok 1%nat, st')
       /\ files st' !! u "2023-01-15-Hello-World.md"
          = Some (hello_header ++ u "some text").
Proof.
  assert (H : files st0 !! u "2023-01-15-Hello-World.md" = None)
    by apply lookup_empty.
  split; [exact H|].
  destruct (publication_writes_absent (answering_world hello) 0 hello [] 0
              st0 (VInt 42) (u "Hello World") hello
              (u "2023-01-15-Hello-World.md")
              (hello_header ++ u "some text"))
    as (st' & E & L & _);
    first [exact H | exact hello_not_empty | reflexivity
          | vm_compute; reflexivity | idtac].
  exists st'. split; assumption.
Defined.



(** X16: a listed record whose number is absent or false as a condition
    (null, zero, the empty text, false) is passed over before anything
    else is done: no request is sent, nothing is printed, count and
    directory stay as they are.  A record whose detail is an empty
    object is passed over after the line that announces it. *)
Theorem records_passed_over (w : world) (k : nat) (i : issue)
    (rest : list issue) (count : nat) (st : state) :
  (match i !! k_number with
   | Some number => truthy number = false
   | None => True
   end ->
   process_issue w k i count st = (Ok count, st)
   /\ loop w k (i :: rest) count st = loop w (S k) rest count st)
  /\ (forall number title,
        i !! k_number = Some number -> truthy number = true ->
        i !! k_title = Some (VStr title) ->
        fetch_json (detail w k) = Ok ∅ ->
        process_issue w k i count st
        = (Ok count, printed st [msg_processing number (take 50 title)])).
Proof.
  split.
  - intros H.
    assert (E : process_issue w k i count st = (Ok count, st)).
    { unfold process_issue. destruct (i !! k_number) as [number|];
        [rewrite H|]; reflexivity. }
    split; [exact E|]. cbn [loop]. cbv [mbind M_bind]. rewrite E.
    reflexivity.
  - intros number title Hn Ht Hti Hd.
    rewrite (process_issue_request w k i count st number title Hn Ht Hti).
    cbv [mbind M_bind get_issue_content]. rewrite Hd. reflexivity.
Qed.

Lemma records_passed_over_witness :
  process_issue (answering_world hello) 0 (<[k_number := VInt 0]> hello) 0
    st_published
  = (Ok 0%nat, st_published).
Proof.
  apply (records_passed_over (answering_world hello) 0
           (<[k_number := VInt 0]> hello) [] 0 st_published).
  reflexivity.
Defined.

Lemma step_effect_bounds (w : world) (k c : nat) (st : state)
    (r : result nat) (st' : state) :
  step_effect w k c st r st' ->
  (size (files st') <= S (size (files st)))%nat
  /\ forall c', r = Ok c' -> (c <= c' <= S c)%nat.
Proof.
  intros [r' st1 E Hc|fn content st1 Hn _ E|fn e p st1 Hn _ E]; rewrite E.
  - split; [lia|]. intros c' H. rewrite (Hc c' H). lia.
  - rewrite (map_size_insert_None _ _ _ Hn). split; [lia|].
    intros c' [= <-]. lia.
  - split; [|intros c' [= <-]; lia].
    destruct p; [rewrite (map_size_insert_None _ _ _ Hn)|]; lia.
Qed.

(** X17: each record adds at most one to the count and at most one file
    to the directory: over a list of records the count grows by at most
    the length of the list, and so does the number of files, also when
    the loop is ended by an exception. *)
Theorem loop_bounds (w : world) (issues : list issue) (k c : nat)
    (st : state) :
  (size (files (loop w k issues c st).2)
   <= size (files st) + length issues)%nat
  /\ forall c', (loop w k issues c st).1 = Ok c' ->
                (c <= c' <= c + length issues)%nat.
Proof.
  revert k c st. induction issues as [|i rest IH]; intros k c st.
  - cbn. split; [lia|]. intros c' [= <-]. lia.
  - cbn [loop length]. cbv [mbind M_bind].
    pose proof (process_issue_effect w k i c st) as E.
    apply step_effect_bounds in E as [Es Ec].
    destruct (process_issue w k i c st) as [[c1|e] st1]; cbn [fst snd] in *.
    + destruct (IH (S k) c1 st1) as [Is Ic]. specialize (Ec c1 eq_refl).
      split; [lia|]. intros c' H. specialize (Ic c' H). lia.
    + split; [lia | discriminate].
Qed.

Lemma loop_append (w : world) (l1 l2 : list issue) (k c : nat) (st : state) :
  loop w k (l1 ++ l2) c st
  = (c1 ← loop w k l1 c; loop w (k + length l1) l2 c1) st.
Proof.
  revert k c st. induction l1 as [|i l1 IH]; intros k c st.
  - cbn [app loop length]. cbv [mbind M_bind mret M_ret].
    rewrite Nat.add_0_r. reflexivity.
  - cbn [app loop length]. cbv [mbind M_bind] in *.
    destruct (process_issue w k i c st) as [[c1|e] st1]; [|reflexivity].
    rewrite IH. replace (S k + length l1)%nat with (k + S (length l1))%nat
      by lia.
    reflexivity.
Qed.

Lemma loop_bounds_witness :
  (loop (answering_world hello) 0 [hello] 0 st0).1 = Ok 1%nat
  /\ (0 <= 1 <= 0 + length [hello])%nat.
Proof.
  assert (H : (loop (answering_world hello) 0 [hello] 0 st0).1 = Ok 1%nat)
    by (vm_compute; reflexivity).
  split; [exact H|].
  exact (proj2 (loop_bounds (answering_world hello) [hello] 0 0 st0) 1%nat H).
Defined.


(** X19: an exception raised while a record is processed ends the loop
    and the run at once: the records after it are not read, no summary is
    printed, and nothing is rolled back, the files written for the
    records before it stay. *)
Theorem loop_aborts (w : world) (l1 : list issue) (i : issue)
    (l2 : list issue) (c c1 : nat) (st st1 st2 : state) (e : exn) :
  loop w 0 l1 c st = (Ok c1, st1) ->
  process_issue w (length l1) i c1 st1 = (Raise e, st2) ->
  loop w 0 (l1 ++ i :: l2) c st = (Raise e, st2)
  /\ files st1 = files st2
  /\ files st ⊆ files st2
  /\ forall st' issues,
       fetch_json (listing w) = Ok issues ->
       issues = l1 ++ i :: l2 ->
       c = 0%nat ->
       st = printed st' [msg_start; rule; msg_fetching;
                         msg_fetched (length issues)] ->
       generate_articles w st' = (Raise e, st2).
Proof.
  intros H1 H2.
  assert (L : loop w 0 (l1 ++ i :: l2) c st = (Raise e, st2)).
  { rewrite loop_append. cbv [mbind M_bind]. rewrite H1. cbn [loop Nat.add].
    cbv [mbind M_bind]. rewrite H2. reflexivity. }
  assert (F : files st1 = files st2).
  { pose proof (process_issue_effect w (length l1) i c1 st1) as E.
    rewrite H2 in E. cbn [fst snd] in E.
    inversion E as [r' st3 Ef _| |]; subst. symmetry. exact Ef. }
  split; [exact L|]. split; [exact F|]. split.
  - rewrite <- F. pose proof (loop_keeps w l1 0 c st) as K.
    rewrite H1 in K. exact K.
  - intros st' issues Hl -> -> ->. unfold generate_articles.
    cbv [mbind M_bind].
    rewrite !print_printed, (get_all_issues_ok _ _ _ Hl), !printed_printed.
    cbn [app] in *. remember (l1 ++ i :: l2) as issues eqn:X.
    destruct issues as [|i0 rest]; [destruct l1; discriminate|].
    rewrite L. reflexivity.
Qed.

Lemma loop_aborts_witness :
  process_issue (answering_world hello) 1 (delete k_title hello) 1
    (loop (answering_world hello) 0 [hello] 0 st0).2
  = (Raise (KeyError k_title), (loop (answering_world hello) 0 [hello] 0 st0).2)
  /\ (loop (answering_world hello) 0 [hello; delete k_title hello; hello] 0
        st0).1
     = Raise (KeyError k_title)
  /\ files (loop (answering_world hello) 0
              [hello; delete k_title hello; hello] 0 st0).2
       !! u "2023-01-15-Hello-World.md"
     = Some (hello_header ++ u "some text").
Proof.
  assert (H1 : loop (answering_world hello) 0 [hello] 0 st0
               = (Ok 1%nat, (loop (answering_world hello) 0 [hello] 0 st0).2))
    by (vm_compute; reflexivity).
  assert (H2 : process_issue (answering_world hello) 1 (delete k_title hello)
                 1 (loop (answering_world hello) 0 [hello] 0 st0).2
               = (Raise (KeyError k_title),
                  (loop (answering_world hello) 0 [hello] 0 st0).2))
    by (vm_compute; reflexivity).
  split; [exact H2|].
  destruct (loop_aborts (answering_world hello) [hello] (delete k_title hello)
              [hello] 0 1 st0 _ _ (KeyError k_title) H1 H2) as (L & _).
  cbn [app] in L. rewrite L. split; [reflexivity|].
  vm_compute. reflexivity.
Defined.

(** ** Running again *)

Lemma sanitize_filename_clock_free (now now' : datetime) (title : str) :
  stripped_title title <> [] ->
  sanitize_filename now title = sanitize_filename now' title.
Proof.
  intros H.
  destruct (sanitize_filename_cases now title) as [[E _]|[_ ->]];
    [contradiction|].
  destruct (sanitize_filename_cases now' title) as [[E _]|[_ ->]];
    [contradiction | reflexivity].
Qed.

(** The clock enters the rendering through the name of the title
    only. *)
Lemma convert_clock (now now' : datetime) (d : issue) :
  (forall title, d !! k_title = Some (VStr title) ->
                 sanitize_filename now title = sanitize_filename now' title) ->
  convert_to_jekyll_post now d = convert_to_jekyll_post now' d.
Proof.
  intros H. unfold convert_to_jekyll_post, getitem.
  destruct (d !! k_title) as [t|]; [|reflexivity].
  cbv [mbind result_bind].
  destruct (d !! k_created_at) as [c|]; [|reflexivity].
  destruct (parse_timestamp c); [|reflexivity].
  destruct (parse_timestamp _); [|reflexivity].
  destruct t as [| | |title]; try reflexivity.
  cbv [as_str]. rewrite (H title eq_refl). reflexivity.
Qed.

Lemma same_names_convert (w w' : world) (k : nat) (d : issue) :
  same_names w w' -> fetch_json (detail w k) = Ok d ->
  convert_to_jekyll_post (clock w' k) d
  = convert_to_jekyll_post (clock w k) d.
Proof.
  intros H Hd. apply convert_clock. intros title Ht.
  destruct (H k d title Hd Ht) as [->|Hs]; [reflexivity|].
  apply sanitize_filename_clock_free, Hs.
Qed.

Lemma process_issue_again (w w' : world) (k : nat) (i : issue) :
  writing w k = Written ->
  fetch_json (detail w' k) = fetch_json (detail w k) ->
  same_names w w' ->
  forall (c c1 : nat) (st st1 : state),
    process_issue w k i c st = (Ok c1, st1) ->
    forall (c' : nat) (st2 : state),
      files st1 ⊆ files st2 ->
      exists ls, process_issue w' k i c' st2 = (Ok c', printed st2 ls).
Proof.
  intros Hw Hd Hs c c1 st st1. unfold process_issue.
  destruct (i !! k_number) as [number|];
    [|intros _ c' st2 _; exists []; rewrite printed_nil; reflexivity].
  destruct (truthy number); cbn [negb];
    [|intros _ c' st2 _; exists []; rewrite printed_nil; reflexivity].
  cbv [mbind M_bind lift].
  destruct (getitem i k_title) as [t|e]; [|discriminate].
  destruct (slice50 t) as [h|e]; [|discriminate].
  rewrite print_printed. unfold get_issue_content. rewrite Hd.
  destruct (fetch_json (detail w k)) as [d|e] eqn:F.
  - cbv [mret M_ret]. destruct (bool_decide (d = ∅)).
    { intros _ c' st2 _. eexists. rewrite print_printed. reflexivity. }
    rewrite (same_names_convert w w' k d Hs F).
    destruct (convert_to_jekyll_post (clock w k) d) as [[fn content]|e];
      [|discriminate].
    unfold exists_file. cbn [printed files].
    intros H c' st2 Hsub.
    assert (Hfn : is_Some (files st2 !! fn)).
    { destruct (files st !! fn) as [old|] eqn:E.
      - rewrite bool_decide_eq_true_2 in H by (eexists; reflexivity).
        rewrite print_printed in H. injection H as _ <-.
        exists old. exact (lookup_weaken _ _ _ _ E Hsub).
      - rewrite bool_decide_eq_false_2 in H
          by (intros [x Hx]; discriminate).
        rewrite Hw in H. unfold save_article in H.
        cbv [mbind M_bind mret M_ret] in H. rewrite print_printed in H.
        injection H as _ <-. exists content.
        apply (lookup_weaken _ _ _ _ (lookup_insert_eq _ _ _) Hsub). }
    rewrite !print_printed. cbn [printed files].
    rewrite bool_decide_eq_true_2 by exact Hfn.
    rewrite print_printed, printed_printed. eexists. reflexivity.
  - destruct e; try discriminate.
    intros _ c' st2 _. cbv [mbind M_bind mret M_ret].
    rewrite !print_printed, printed_printed. eexists. reflexivity.
Qed.

Lemma loop_again (w w' : world) (issues : list issue) :
  (forall j, writing w j = Written) ->
  (forall j, fetch_json (detail w' j) = fetch_json (detail w j)) ->
  same_names w w' ->
  forall (k c c1 : nat) (st st1 : state),
    loop w k issues c st = (Ok c1, st1) ->
    forall (c' : nat) (st2 : state),
      files st1 ⊆ files st2 ->
      exists ls, loop w' k issues c' st2 = (Ok c', printed st2 ls).
Proof.
  intros Hw Hd Hs. induction issues as [|i rest IH]; intros k c c1 st st1.
  - intros _ c' st2 _. exists []. rewrite printed_nil. reflexivity.
  - cbn [loop]. cbv [mbind M_bind].
    destruct (process_issue w k i c st) as [[ca|e] sta] eqn:E;
      [|discriminate].
    intros H c' st2 Hsub.
    pose proof (loop_keeps w rest (S k) ca sta) as K. rewrite H in K.
    cbn [snd] in K.
    destruct (process_issue_again w w' k i (Hw k) (Hd k) Hs c ca st sta E
                c' st2) as [ls1 E2]; [etransitivity; eassumption|].
    rewrite E2.
    destruct (IH (S k) ca c1 sta st1 H c' (printed st2 ls1) Hsub)
      as [ls2 E3].
    rewrite E3, printed_printed. eexists. reflexivity.
Qed.

Lemma generate_articles_listed (w : world) (st : state)
    (issues : list issue) :
  fetch_json (listing w) = Ok issues ->
  generate_articles w st
  = match issues with
    | [] => (Ok tt, printed st [msg_start; rule; msg_fetching; msg_fetched 0;
                                msg_no_issues])
    | _ => (c ← loop w 0 issues 0; summary w c)
             (printed st [msg_start; rule; msg_fetching;
                          msg_fetched (length issues)])
    end.
Proof.
  intros H. unfold generate_articles. cbv [mbind M_bind].
  rewrite !print_printed, (get_all_issues_ok _ _ _ H), !printed_printed.
  destruct issues; [|reflexivity].
  rewrite print_printed, printed_printed. reflexivity.
Qed.

Lemma generate_articles_not_listed (w : world) (st : state) (e : exn) :
  fetch_json (listing w) = Raise e ->
  generate_articles w st
  = (if is_request_exception e then Ok tt else Raise e,
     printed st ([msg_start; rule; msg_fetching]
                 ++ match e with
                    | RequestException msg =>
                        [msg_fetch_failed msg; msg_no_issues]
                    | _ => []
                    end)).
Proof.
  intros H. unfold generate_articles, get_all_issues. cbv [mbind M_bind].
  rewrite !print_printed, H.
  destruct e; cbv [lift mbind M_bind mret M_ret];
    rewrite ?print_printed, !printed_printed; reflexivity.
Qed.

(** X20: publication is idempotent.  After a run that ended without an
    exception and in which every write succeeded, a second run that gets
    the same answers from the network writes nothing, whatever the
    outcome its writes would have: it returns normally, the directory is
    the same after it, and when records are listed its summary reports
    the count zero.  The clock of the second run may differ wherever the
    title of the record does not strip to nothing. *)
Theorem second_run_writes_nothing (w w' : world) (st st1 : state) :
  (forall j, writing w j = Written) ->
  fetch_json (listing w') = fetch_json (listing w) ->
  (forall j, fetch_json (detail w' j) = fetch_json (detail w j)) ->
  same_names w w' ->
  generate_articles w st = (Ok tt, st1) ->
  exists ls,
    generate_articles w' st1 = (Ok tt, printed st1 ls)
    /\ (forall issues,
          fetch_json (listing w) = Ok issues -> issues <> [] ->
          exists pre, ls = pre ++ summary_lines w' 0 (files st1)).
Proof.
  intros Hw Hl Hd Hs H.
  destruct (fetch_json (listing w)) as [issues|e] eqn:F.
  - rewrite (generate_articles_listed w st issues F) in H.
    rewrite (generate_articles_listed w' st1 issues) by exact Hl.
    destruct issues as [|i rest].
    + eexists. split; [reflexivity|]. intros issues [= <-] Hne.
      contradiction.
    + cbv [mbind M_bind] in H |- *.
      destruct (loop w 0 (i :: rest) 0 _) as [[c|e] st2] eqn:L;
        [|discriminate].
      rewrite summary_printed in H. injection H as H.
      assert (Hsub : files st2 ⊆ files st1) by (rewrite <- H; reflexivity).
      destruct (loop_again w w' (i :: rest) Hw Hd Hs _ _ _ _ _ L 0%nat
                  (printed st1 [msg_start; rule; msg_fetching;
                                msg_fetched (length (i :: rest))]) Hsub)
        as [ls E].
      rewrite E, summary_printed, !printed_printed. cbn [printed files].
      eexists. split; [reflexivity|].
      intros issues _ _. eexists. rewrite app_assoc. reflexivity.
  - rewrite (generate_articles_not_listed w st e F) in H.
    rewrite (generate_articles_not_listed w' st1 e) by exact Hl.
    destruct e; try discriminate. cbn [is_request_exception].
    eexists. split; [reflexivity|]. intros issues Hi. discriminate.
Qed.

Lemma second_run_writes_nothing_witness :
  generate_articles (answering_world hello) st0
  = (Ok tt, (generate_articles (answering_world hello) st0).2)
  /\ exists ls,
       generate_articles (later_world hello)
         (generate_articles (answering_world hello) st0).2
       = (Ok tt, printed (generate_articles (answering_world hello) st0).2 ls).
Proof.
  assert (H : generate_articles (answering_world hello) st0
              = (Ok tt, (generate_articles (answering_world hello) st0).2))
    by (vm_compute; reflexivity).
  split; [exact H|].
  destruct (second_run_writes_nothing (answering_world hello)
              (later_world hello) st0
              (generate_articles (answering_world hello) st0).2
              (fun _ => eq_refl) eq_refl (fun _ => eq_refl)) as (ls & E & _).
  - intros k d title Hd Ht. right.
    change (Ok hello = Ok d) in Hd. injection Hd as <-.
    assert (T : title = u "Hello World").
    { assert (X : hello !! k_title = Some (VStr (u "Hello World")))
        by (vm_compute; reflexivity).
      rewrite X in Ht. injection Ht as <-. reflexivity. }
    rewrite T. vm_compute. discriminate.
  - exact H.
  - exists ls. exact E.
Defined.

(** X23: the clock enters the result of [sanitize_filename] exactly when
    the title strips to nothing: otherwise the result is the same at all
    times, and then two calls agree exactly when their clocks print the
    same stamp. *)
Theorem sanitize_filename_clock (now now' : datetime) (title : str) :
  (stripped_title title <> [] ->
   sanitize_filename now title = sanitize_filename now' title)
  /\ (stripped_title title = [] ->
      (sanitize_filename now title = sanitize_filename now' title
       <-> strftime_compact now = strftime_compact now')).
Proof.
  split; [apply sanitize_filename_clock_free|].
  intros E.
  destruct (sanitize_filename_cases now title) as [[_ ->]|[Hne _]];
    [|contradiction].
  destruct (sanitize_filename_cases now' title) as [[_ ->]|[Hne _]];
    [|contradiction].
  split; [apply app_inv_head | intros ->; reflexivity].
Qed.

Lemma sanitize_filename_clock_witness :
  sanitize_filename hello_created (u "Hello World")
  = sanitize_filename hello_updated (u "Hello World")
  /\ sanitize_filename hello_created [63] <> sanitize_filename hello_updated [63].
Proof.
  destruct (sanitize_filename_clock hello_created hello_updated
              (u "Hello World")) as [A _].
  destruct (sanitize_filename_clock hello_created hello_updated [63])
    as [_ B].
  split.
  - apply A. vm_compute. discriminate.
  - intros E. apply (B eq_refl) in E. vm_compute in E. discriminate.
Defined.

(** ** The order of the listing, continued *)

Lemma str_leb_trans (a b c : str) :
  str_leb a b = true -> str_leb b c = true -> str_leb a c = true.
Proof.
  revert b c. induction a as [|x a IH]; intros [|y b] [|z c]; cbn;
    try reflexivity; try discriminate.
  destruct (N.ltb_spec x y) as [Hxy|Hxy].
  - intros _. destruct (N.ltb_spec y z) as [Hyz|Hyz].
    + intros _. destruct (N.ltb_spec x z); [reflexivity | lia].
    + destruct (N.eqb_spec y z) as [->|]; [|discriminate]. intros _.
      destruct (N.ltb_spec x z); [reflexivity | lia].
  - destruct (N.eqb_spec x y) as [->|]; [|discriminate]. intros Hab.
    destruct (N.ltb_spec y z); [reflexivity|].
    destruct (N.eqb_spec y z) as [->|]; [|discriminate].
    apply IH, Hab.
Qed.

Lemma str_leb_antisym (a b : str) :
  str_leb a b = true -> str_leb b a = true -> a = b.
Proof.
  revert b. induction a as [|x a IH]; intros [|y b]; cbn;
    try reflexivity; try discriminate.
  destruct (N.ltb_spec x y) as [Hxy|Hxy].
  - intros _. destruct (N.ltb_spec y x); [lia|].
    destruct (N.eqb_spec y x); [lia | discriminate].
  - destruct (N.eqb_spec x y) as [->|]; [|discriminate].
    rewrite N.ltb_irrefl, N.eqb_refl. intros H1 H2. f_equal.
    apply IH; assumption.
Qed.

#[global] Instance str_le_trans : Transitive str_le.
Proof. intros a b c. apply str_leb_trans. Qed.

#[global] Instance str_le_antisym : AntiSymm (=) str_le.
Proof. intros a b. apply str_leb_antisym. Qed.



(** ** Timestamps ending in [Z] *)

Lemma replace_Z_id (s : str) :
  Forall (fun c => c <> 90) s -> replace_Z s = s.
Proof.
  induction 1 as [|c s Hc _ IH]; [reflexivity|].
  unfold replace_Z in *. cbn [flat_map]. apply N.eqb_neq in Hc.
  rewrite Hc, IH. reflexivity.
Qed.

(** X22: a timestamp with date and time that ends in [Z] is read as the
    same date and time in UTC, and its offset is printed as [+0000]. *)
Theorem timestamp_Z_is_utc (s : str) (d : datetime) :
  length s = 19%nat ->
  Forall (fun c => c <> 90) s ->
  fromisoformat s = Some d ->
  parse_timestamp (VStr (s ++ [90])) = Ok (as_utc d)
  /\ strftime_z (as_utc d) = u "+0000".
Proof.
  intros Hlen Hz H. split; [|reflexivity].
  unfold parse_timestamp. cbv [mbind result_bind as_str].
  assert (R : replace_Z (s ++ [90]) = s ++ [43; 48; 48; 58; 48; 48]).
  { unfold replace_Z. rewrite flat_map_app. fold (replace_Z s).
    rewrite (replace_Z_id s Hz). reflexivity. }
  rewrite R. clear R Hz.
  do 19 (destruct s as [|? s]; [discriminate|]).
  destruct s; [|discriminate]. clear Hlen.
  revert H. unfold fromisoformat. cbn [app].
  cbv [mbind option_bind].
  repeat (match goal with
          | |- context [N.eqb ?a ?b] => destruct (N.eqb a b); cbn [andb]
          | |- context [match num4 ?c1 ?c2 ?c3 ?c4 with _ => _ end] =>
              destruct (num4 c1 c2 c3 c4)
          | |- context [match num2 ?c1 ?c2 with _ => _ end] =>
              destruct (num2 c1 c2)
          | |- context [if valid_date ?y ?m ?dd then _ else _] =>
              destruct (valid_date y m dd)
          | |- context [if valid_time ?h ?m ?sec then _ else _] =>
              destruct (valid_time h m sec)
          end; cbv beta iota; try discriminate).
  cbn. intros [= <-]. reflexivity.
Qed.

Lemma timestamp_Z_is_utc_witness :
  parse_timestamp (VStr (u "2023-01-15T10:30:00" ++ [90])) = Ok hello_created.
Proof.
  apply (timestamp_Z_is_utc (u "2023-01-15T10:30:00")
           {| year := 2023; month := 1; day := 15; hour := 10; minute := 30;
              second := 0; utcoffset := None |}).
  - reflexivity.
  - let l := eval vm_compute in (u "2023-01-15T10:30:00") in
    change (u "2023-01-15T10:30:00") with l.
    repeat constructor; discriminate.
  - reflexivity.
Defined.

(** ** The layout of the document *)

Lemma strftime_full_line (d : datetime) :
  Forall (fun c => c <> newline) (strftime_full d).
Proof.
  assert (D : forall n, digit n <> newline).
  { intros n. pose proof (digit_range n). unfold newline. lia. }
  unfold strftime_full, strftime_date, strftime_z, pad4, pad2.
  destruct (utcoffset d) as [[[] m]|]; cbn [app];
    repeat (constructor; [first [apply D | discriminate]|]); constructor.
Qed.

Lemma split_lines (c : char) (ls : list str) (rest : str) :
  Forall (Forall (fun x => x <> c)) ls ->
  split c (concat (map (fun l => l ++ [c]) ls) ++ rest) = ls ++ split c rest.
Proof.
  induction 1 as [|l ls Hl _ IH]; [reflexivity|].
  cbn [map concat]. rewrite <- !app_assoc. cbn [app].
  rewrite (split_app c l _ Hl), IH. reflexivity.
Qed.

Lemma front_matter_lines (title : str) (cd ud : datetime) (number : value) :
  front_matter title cd ud number
  = concat (map (fun l => l ++ [newline]) (header_lines title cd ud number)).
Proof.
  unfold front_matter, header_lines. cbn [map concat].
  rewrite <- !app_assoc. cbn [app]. rewrite ?app_nil_r. reflexivity.
Qed.

(** X24: when neither the title nor the printed number holds a newline,
    the document is made of the fifteen lines of the header, the same
    for every record up to the title, the two dates and the number,
    followed by the lines of the body section: the body begins on the
    sixteenth line. *)
Theorem document_lines (title : str) (cd ud : datetime) (number : value)
    (body : str) :
  Forall (fun c => c <> newline) title ->
  Forall (fun c => c <> newline) (format_value number) ->
  split newline (front_matter title cd ud number ++ body)
  = header_lines title cd ud number ++ split newline body
  /\ length (header_lines title cd ud number) = 15%nat.
Proof.
  intros Ht Hn. split; [|reflexivity].
  rewrite front_matter_lines. apply split_lines.
  pose proof (strftime_full_line cd) as Hc.
  pose proof (strftime_full_line ud) as Hu.
  assert (L : forall s : string,
             forallb (fun c => negb (c =? newline)) (u s) = true ->
             Forall (fun c => c <> newline) (u s)).
  { intros s H. apply Forall_forall. intros c Hc'.
    apply list_elem_of_In in Hc'.
    rewrite forallb_forall in H. specialize (H c Hc').
    apply negb_true_iff, N.eqb_neq in H. exact H. }
  assert (R1 : Forall (fun c => c <> newline) repo_owner)
    by (repeat constructor; discriminate).
  assert (R2 : Forall (fun c => c <> newline) repo_name)
    by (repeat constructor; discriminate).
  unfold header_lines.
  let rec line :=
    lazymatch goal with
    | |- Forall _ (_ ++ _) => apply Forall_app; split; line
    | |- Forall _ [] => constructor
    | |- Forall _ (u _) => apply L; vm_compute; reflexivity
    | |- Forall _ [_] => constructor; [discriminate | constructor]
    | |- _ => assumption
    end in
  let rec lines :=
    lazymatch goal with
    | |- Forall _ (_ :: _) => constructor; [line | lines]
    | |- Forall _ [] => constructor
    end in
  lines.
Qed.

Lemma document_lines_witness :
  split newline (hello_header ++ u "some text")
  = header_lines (u "Hello World") hello_created hello_updated (VInt 42)
    ++ [u "some text"].
Proof.
  unfold hello_header.
  rewrite (proj1 (document_lines (u "Hello World") hello_created
                    hello_updated (VInt 42) (u "some text")
                    ltac:(let l := eval vm_compute in (u "Hello World") in
                          change (u "Hello World") with l;
                          repeat constructor; discriminate)
                    ltac:(repeat constructor; discriminate))).
  reflexivity.
Defined.

(** ** The length of the name *)

Lemma sub_from_length (r : regex) (repl : str) :
  (length repl <= 1)%nat ->
  forall s k, (length (sub_from r repl k s) <= length s)%nat.
Proof.
  intros Hr. induction s as [|c s IH]; intros k; [reflexivity|].
  cbn [sub_from length]. destruct k as [|k]; [|specialize (IH k); lia].
  destruct (match_here r (c :: s)) as [[|n]|].
  - cbn [length]. specialize (IH 0%nat). lia.
  - rewrite length_app. specialize (IH n). lia.
  - cbn [length]. specialize (IH 0%nat). lia.
Qed.

Lemma strip_length (p : char -> bool) (s : str) :
  (length (strip p s) <= length s)%nat.
Proof.
  destruct (strip_split p s) as (pre & post & E & _).
  rewrite E at 2. rewrite !length_app. lia.
Qed.

(** X25: the result of [sanitize_filename] is never longer than the
    title, except for the fallback, which has 23 characters; the file
    name of a document is then at most 14 characters longer. *)
Theorem sanitize_filename_length (now : datetime) (title : str) :
  (length (sanitize_filename now title) <= Nat.max 23 (length title))%nat
  /\ (stripped_title title <> [] ->
      (length (sanitize_filename now title) <= length title)%nat)
  /\ forall (cd : datetime),
       (length (strftime_date cd ++ [hyphen] ++ sanitize_filename now title
                ++ u ".md")
        <= 14 + Nat.max 23 (length title))%nat.
Proof.
  assert (S : (length (stripped_title title) <= length title)%nat).
  { unfold stripped_title, re_sub.
    etransitivity; [apply strip_length|].
    etransitivity; [apply sub_from_length; cbn; lia|].
    etransitivity; [apply sub_from_length; cbn; lia|].
    apply sub_from_length. cbn. lia. }
  assert (A : (length (sanitize_filename now title)
               <= Nat.max 23 (length title))%nat).
  { destruct (sanitize_filename_cases now title) as [[_ ->]|[_ ->]].
    - rewrite u_article. cbn. lia.
    - lia. }
  split; [exact A|]. split.
  - intros Hne.
    destruct (sanitize_filename_cases now title) as [[E _]|[_ ->]];
      [contradiction | exact S].
  - intros cd. rewrite !length_app, strftime_date_length.
    change (length (u ".md")) with 3%nat. cbn [length]. lia.
Qed.

Lemma sanitize_filename_length_witness :
  stripped_title [97; 32; 32; 98] <> []
  /\ (length (sanitize_filename hello_created [97; 32; 32; 98]%N) <= 4)%nat.
Proof.
  assert (H : stripped_title [97; 32; 32; 98] <> [])
    by (vm_compute; discriminate).
  split; [exact H|].
  exact (proj1 (proj2 (sanitize_filename_length hello_created
                         [97; 32; 32; 98])) H).
Defined.
